(** * Project Sentinel: the anomaly detection engine

    A shallow embedding of [scripts/anamoly_engine.py].  The engine is a
    batch pipeline over pandas data frames:

      prepare_data -> detect_anomalies (group by state; z-score flags,
      IQR flags, combine_flags per group) -> generate_flagged_report

    A data frame is a list of rows (records), one record type per stage,
    each stage adding its columns.  The engine is written once over an
    interface of numbers ([Num]) and instantiated twice: at the binary64
    floats that pandas computes with, where every definition runs, and at
    the real numbers, exact arithmetic without rounding. *)

From Stdlib Require Import ZArith List String Ascii Bool Arith Lia.
From Stdlib Require Import Permutation Sorted.
From Stdlib Require Import Floats Reals Lra.
From Stdlib Require Import DecimalString.
Import ListNotations.

Set Implicit Arguments.
Open Scope string_scope.

(** ** Numbers *)

(** The operations the engine uses on a column of numbers.  The three
    comparisons are Python's [==], [<=] and [<]; [fisnan] is [np.isnan]. *)
Class Num (A : Type) : Type := {
  fofZ : Z -> A;
  fadd : A -> A -> A;
  fsub : A -> A -> A;
  fmul : A -> A -> A;
  fdiv : A -> A -> A;
  fsqrt : A -> A;
  fabs : A -> A;
  feqb : A -> A -> bool;
  fleb : A -> A -> bool;
  fltb : A -> A -> bool;
  fisnan : A -> bool
}.

(** Python's [x >= y] and [x > y]. *)
Definition fgeb {A} `{Num A} (x y : A) : bool := fleb y x.
Definition fgtb {A} `{Num A} (x y : A) : bool := fltb y x.

(** binary64, the dtype of a pandas float column. *)
Definition float_of_Z (z : Z) : float :=
  match z with
  | Z0 => PrimFloat.of_uint63 (Uint63.of_Z 0)
  | Zpos _ => PrimFloat.of_uint63 (Uint63.of_Z z)
  | Zneg p => PrimFloat.opp (PrimFloat.of_uint63 (Uint63.of_Z (Zpos p)))
  end.

#[export] Instance FloatNum : Num float := {
  fofZ := float_of_Z;
  fadd := PrimFloat.add;
  fsub := PrimFloat.sub;
  fmul := PrimFloat.mul;
  fdiv := PrimFloat.div;
  fsqrt := PrimFloat.sqrt;
  fabs := PrimFloat.abs;
  feqb := PrimFloat.eqb;
  fleb := PrimFloat.leb;
  fltb := PrimFloat.ltb;
  fisnan := PrimFloat.is_nan
}.

(** Exact arithmetic: no rounding and no NaN. *)
Definition Reqb (x y : R) : bool := if Req_dec_T x y then true else false.
Definition Rleb (x y : R) : bool := if Rle_dec x y then true else false.
Definition Rltb (x y : R) : bool := if Rlt_dec x y then true else false.

#[export] Instance RealNum : Num R := {
  fofZ := IZR;
  fadd := Rplus;
  fsub := Rminus;
  fmul := Rmult;
  fdiv := Rdiv;
  fsqrt := sqrt;
  fabs := Rabs;
  feqb := Reqb;
  fleb := Rleb;
  fltb := Rltb;
  fisnan := fun _ => false
}.

(** ** Strings *)

(** Python's [sub in s] on two strings. *)
Fixpoint str_in (sub s : string) : bool :=
  String.prefix sub s ||
  match s with
  | EmptyString => false
  | String _ t => str_in sub t
  end.

(** [x in (a, b)]: membership in a pair, by equality. *)
Definition in_pair (x a b : string) : bool := String.eqb x a || String.eqb x b.

(** [repr] of a list of plain names, as an f-string prints it:
    ['a', 'b']. *)
Definition repr_str (s : string) : string := "'" ++ s ++ "'".
Definition repr_list (l : list string) : string :=
  "[" ++ String.concat ", " (map repr_str l) ++ "]".

(** ** Errors *)

Inductive exn : Type :=
| ValueError (msg : string).

Inductive result (T : Type) : Type :=
| Ok (v : T)
| Raise (e : exn).
Arguments Ok {T} v.
Arguments Raise {T} e.

Definition bind {T U} (m : result T) (k : T -> result U) : result U :=
  match m with
  | Ok v => k v
  | Raise e => Raise e
  end.

Notation "x <- m ;; k" := (bind m (fun x => k))
  (at level 61, m at next level, right associativity).

(** ** The data model *)

(** The five categorical values a scorer writes, and the five verdicts of
    the reconciliation.  The frames hold them as strings; these are the
    vocabularies the strings are drawn from. *)
Inductive flag : Type :=
| Normal | Hot_High | Hot_Medium | Dark_High | Dark_Medium.

Definition flag_str (f : flag) : string :=
  match f with
  | Normal => "Normal"
  | Hot_High => "Hot_High"
  | Hot_Medium => "Hot_Medium"
  | Dark_High => "Dark_High"
  | Dark_Medium => "Dark_Medium"
  end.

Inductive verdict : Type :=
| NORMAL | HOT_SPOT_HIGH | HOT_SPOT_MEDIUM | DARK_SPOT_HIGH | DARK_SPOT_MEDIUM.

Definition verdict_str (v : verdict) : string :=
  match v with
  | NORMAL => "NORMAL"
  | HOT_SPOT_HIGH => "HOT_SPOT_HIGH"
  | HOT_SPOT_MEDIUM => "HOT_SPOT_MEDIUM"
  | DARK_SPOT_HIGH => "DARK_SPOT_HIGH"
  | DARK_SPOT_MEDIUM => "DARK_SPOT_MEDIUM"
  end.

Section Engine.

Variable A : Type.
Context {N : Num A}.

(** A cell of a count column of the raw table: a number, a text, or
    missing. *)
Inductive cell : Type :=
| CNum (x : A)
| CStr (s : string)
| CNA.

(** A text column holds a string or is missing ([None], pandas' NaN). *)
Definition text := option string.

(** The raw table: the names of its columns and its rows.  A row gives the
    value of the five columns the engine reads; the field of a column that
    [columns] does not list is never read. *)
Record RawRow : Type := mkRawRow {
  raw_state : text;
  raw_district : text;
  raw_time_period : text;
  raw_enrolment_count : cell;
  raw_update_count : cell
}.

Record RawFrame : Type := mkRawFrame {
  columns : list string;
  raw_rows : list RawRow
}.

(** A row of the cleaned table ([prepare_data]). *)
Record Row : Type := mkRow {
  state : text;
  district : text;
  time_period : text;
  enrolment_count : A;
  update_count : A;
  total_activity : A
}.

(** ... with the columns of [calculate_zscore_flags], *)
Record ZRow : Type := mkZRow {
  zrow : Row;
  z_score : A;
  z_flag : string
}.

(** ... of [calculate_iqr_flags], *)
Record IRow : Type := mkIRow {
  irow : ZRow;
  iqr_flag : string
}.

(** ... and of [combine_flags]. *)
Record FRow : Type := mkFRow {
  frow : IRow;
  final_flag : string;
  risk_severity : string;
  anomaly_type : string
}.

(** *** Step 1: data preparation *)

(** [pd.to_numeric] of the strings of a column is pandas' own parser; the
    engine only depends on which texts it reads as a number. *)
Variable parse_number : string -> option A.

Definition required_cols : list string :=
  ["state"; "district"; "time_period"; "enrolment_count"; "update_count"].

Definition has_column (df : RawFrame) (c : string) : bool :=
  existsb (String.eqb c) (columns df).

(** [pd.to_numeric(..., errors='coerce')]: the number of a cell, [None]
    (NaN) where there is none. *)
Definition to_numeric (c : cell) : option A :=
  let v := match c with
           | CNum x => Some x
           | CStr s => parse_number s
           | CNA => None
           end in
  match v with
  | Some x => if fisnan x then None else Some x
  | None => None
  end.

(** One row through the coercion, [dropna] on the two counts, and the
    derived column.  The counts are numbers of the column type, binary64;
    pandas keeps a column of integers as int64, which agrees with it on
    counts below 2^53. *)
Definition prepare_row (r : RawRow) : option Row :=
  match to_numeric (raw_enrolment_count r), to_numeric (raw_update_count r) with
  | Some e, Some u =>
      Some {| state := raw_state r;
              district := raw_district r;
              time_period := raw_time_period r;
              enrolment_count := e;
              update_count := u;
              total_activity := fadd e u |}
  | _, _ => None
  end.

(** The mask of [dropna]: both counts are present after the coercion. *)
Definition counts_present (r : RawRow) : bool :=
  match to_numeric (raw_enrolment_count r), to_numeric (raw_update_count r) with
  | Some _, Some _ => true
  | _, _ => false
  end.

(** A cleaned row is made from a raw row: the texts kept, the two counts
    coerced, their sum derived. *)
Definition cleaned_from (raw : RawRow) (row : Row) : Prop :=
  state row = raw_state raw /\
  district row = raw_district raw /\
  time_period row = raw_time_period raw /\
  to_numeric (raw_enrolment_count raw) = Some (enrolment_count row) /\
  to_numeric (raw_update_count raw) = Some (update_count row) /\
  total_activity row = fadd (enrolment_count row) (update_count row).

Fixpoint dropna_rows (rows : list RawRow) : list Row :=
  match rows with
  | [] => []
  | r :: rest =>
      match prepare_row r with
      | Some c => c :: dropna_rows rest
      | None => dropna_rows rest
      end
  end.

Definition missing_cols (df : RawFrame) : list string :=
  filter (fun c => negb (has_column df c)) required_cols.

Definition prepare_data (df : RawFrame) : result (list Row) :=
  match missing_cols df with
  | [] => Ok (dropna_rows (raw_rows df))
  | missing => Raise (ValueError ("Missing required columns: " ++ repr_list missing))
  end.

(** *** Series statistics *)

(** The statistics are taken over the values as they are: the metric of a
    cleaned row is a number unless its two counts are infinities of
    opposite sign, the one case in which pandas would skip a value
    ([skipna]).

    [Series.sum()] adds the values from left to right, starting at 0.
    numpy adds eight or more values in another order (pairwise), which
    can change the last bits of a binary64 sum; the sum of integer counts
    below 2^53 is exact in any order. *)
Definition series_sum (l : list A) : A := fold_left fadd l (fofZ 0).

Definition series_count (l : list A) : A := fofZ (Z.of_nat (List.length l)).

(** [Series.mean()]. *)
Definition series_mean (l : list A) : A := fdiv (series_sum l) (series_count l).

(** [Series.std()], the sample standard deviation (ddof = 1):
    the square root of the sum of squared distances to the mean over
    [count - 1]; pandas returns NaN ([None]) when [count <= 1]. *)
Definition series_std (l : list A) : option A :=
  if (List.length l <=? 1)%nat then None
  else
    let avg := series_mean l in
    let sqr := map (fun x => let d := fsub avg x in fmul d d) l in
    Some (fsqrt (fdiv (series_sum sqr) (fofZ (Z.of_nat (List.length l - 1))))).

Fixpoint insert_value (x : A) (l : list A) : list A :=
  match l with
  | [] => [x]
  | y :: t => if fleb x y then x :: l else y :: insert_value x t
  end.

Definition sort_series (l : list A) : list A := fold_right insert_value [] l.

(** numpy's interpolation between two neighbours, [t] in [0, 1). *)
Definition lerp (a b t : A) : A :=
  if fgeb t (fdiv (fofZ 1) (fofZ 2))
  then fsub b (fmul (fsub b a) (fsub (fofZ 1) t))
  else fadd a (fmul (fsub b a) t).

(** [Series.quantile(qn / qd)], linear interpolation: the value at the
    position [(count - 1) * qn / qd] of the sorted series, interpolated
    between the two neighbours of a fractional position. *)
Definition series_quantile (qn qd : nat) (l : list A) : A :=
  let s := sort_series l in
  let h := ((List.length l - 1) * qn)%nat in
  let lo := (h / qd)%nat in
  let hi := Nat.min (lo + 1) (List.length l - 1) in
  let gamma := fdiv (fofZ (Z.of_nat (h mod qd))) (fofZ (Z.of_nat qd)) in
  lerp (nth lo s (fofZ 0)) (nth hi s (fofZ 0)) gamma.

(** [df.loc[mask, col] = v] on one row: the value is overwritten where
    the mask holds. *)
Definition loc_assign (mask : bool) (v cur : string) : string :=
  if mask then v else cur.

(** *** Step 2: z-score detection *)

(** [std == 0 or np.isnan(std)]. *)
Definition std_degenerate (sd : option A) : bool :=
  match sd with
  | None => true
  | Some s => feqb s (fofZ 0) || fisnan s
  end.

Definition zscore_flag (z : A) : string :=
  let f := "Normal" in
  let f := loc_assign (fgeb z (fofZ 3)) "Hot_High" f in
  let f := loc_assign (fgeb z (fofZ 2) && fltb z (fofZ 3)) "Hot_Medium" f in
  let f := loc_assign (fleb z (fofZ (-3))) "Dark_High" f in
  let f := loc_assign (fleb z (fofZ (-2)) && fgtb z (fofZ (-3))) "Dark_Medium" f in
  f.

Definition zscore_of (mean : A) (sd : option A) (x : A) : A :=
  match sd with
  | Some s => if std_degenerate sd then fofZ 0 else fdiv (fsub x mean) s
  | None => fofZ 0
  end.

Definition calculate_zscore_flags (metric : Row -> A) (group_df : list Row)
  : list ZRow :=
  let mean := series_mean (map metric group_df) in
  let std := series_std (map metric group_df) in
  map (fun r =>
         let z := zscore_of mean std (metric r) in
         {| zrow := r; z_score := z; z_flag := zscore_flag z |})
      group_df.

(** *** Step 3: IQR detection *)

Definition iqr_flag_of (q1 q3 v : A) : string :=
  let iqr := fsub q3 q1 in
  let one_and_half := fdiv (fofZ 3) (fofZ 2) in
  let lower_medium := fsub q1 (fmul one_and_half iqr) in
  let lower_high := fsub q1 (fmul (fofZ 3) iqr) in
  let upper_medium := fadd q3 (fmul one_and_half iqr) in
  let upper_high := fadd q3 (fmul (fofZ 3) iqr) in
  let f := "Normal" in
  let f := loc_assign (fgeb v upper_high) "Hot_High" f in
  let f := loc_assign (fgeb v upper_medium && fltb v upper_high) "Hot_Medium" f in
  let f := loc_assign (fleb v lower_high) "Dark_High" f in
  let f := loc_assign (fleb v lower_medium && fgtb v lower_high) "Dark_Medium" f in
  f.

Definition calculate_iqr_flags (metric : Row -> A) (group_df : list ZRow)
  : list IRow :=
  let values := map (fun r => metric (zrow r)) group_df in
  let Q1 := series_quantile 1 4 values in
  let Q3 := series_quantile 3 4 values in
  map (fun r =>
         {| irow := r; iqr_flag := iqr_flag_of Q1 Q3 (metric (zrow r)) |})
      group_df.

(** *** Step 4: combine flags *)

Definition decide (z i : string) : string :=
  if in_pair "Hot_High" z i && str_in "Hot" z && str_in "Hot" i
  then "HOT_SPOT_HIGH"
  else if in_pair "Dark_High" z i && str_in "Dark" z && str_in "Dark" i
  then "DARK_SPOT_HIGH"
  else if str_in "Hot" z || str_in "Hot" i
  then "HOT_SPOT_MEDIUM"
  else if str_in "Dark" z || str_in "Dark" i
  then "DARK_SPOT_MEDIUM"
  else "NORMAL".

Definition severity_of (x : string) : string :=
  if str_in "HIGH" x then "High"
  else if str_in "MEDIUM" x then "Medium" else "Normal".

Definition type_of (x : string) : string :=
  if str_in "HOT" x then "Hot Spot"
  else if str_in "DARK" x then "Dark Spot" else "Normal".

Definition combine_row (r : IRow) : FRow :=
  let final := decide (z_flag (irow r)) (iqr_flag r) in
  {| frow := r;
     final_flag := final;
     risk_severity := severity_of final;
     anomaly_type := type_of final |}.

Definition combine_flags (df : list IRow) : list FRow := map combine_row df.

(** *** Step 5: main pipeline *)

(** The group keys of [df.groupby(col)]: the values of the column, each
    once, in ascending order.  A row whose key is missing is in no group
    (pandas' default [dropna=True]). *)
Definition present_keys (key : Row -> text) (df : list Row) : list string :=
  flat_map (fun r => match key r with Some k => [k] | None => [] end) df.

Fixpoint insert_key (k : string) (l : list string) : list string :=
  match l with
  | [] => [k]
  | y :: t => if String.leb k y then k :: l else y :: insert_key k t
  end.

Definition sort_keys (l : list string) : list string := fold_right insert_key [] l.

Definition group_keys (key : Row -> text) (df : list Row) : list string :=
  sort_keys (nodup string_dec (present_keys key df)).

Definition has_key (k : string) (t : text) : bool :=
  match t with
  | Some s => String.eqb s k
  | None => false
  end.

(** A row that has a key. *)
Definition keyed (key : Row -> text) (r : Row) : bool :=
  match key r with
  | Some _ => true
  | None => false
  end.

(** The groups, in key order; each keeps its rows in the order of the
    frame. *)
Definition groupby (key : Row -> text) (df : list Row)
  : list (string * list Row) :=
  map (fun k => (k, filter (fun r => has_key k (key r)) df)) (group_keys key df).

(** The cleaned row a scored row was made from. *)
Definition base_row (r : FRow) : Row := zrow (irow (frow r)).

(** [pd.concat(results, ignore_index=True)] raises on an empty list. *)
Definition pd_concat (results : list (list FRow)) : result (list FRow) :=
  match results with
  | [] => Raise (ValueError "No objects to concatenate")
  | _ => Ok (List.concat results)
  end.

Definition score_group (metric : Row -> A) (group : list Row) : list FRow :=
  let g := calculate_zscore_flags metric group in
  let g := calculate_iqr_flags metric g in
  combine_flags g.

Definition detect_anomalies_by (groupby_column : Row -> text) (metric : Row -> A)
  (df : list Row) : result (list FRow) :=
  let results := map (fun kg => score_group metric (snd kg)) (groupby groupby_column df) in
  pd_concat results.

(** The defaults: [groupby_column='state', metric='total_activity']. *)
Definition detect_anomalies (df : list Row) : result (list FRow) :=
  detect_anomalies_by state total_activity df.

(** *** Step 6: final report *)

(** [f"{x:.2f}"] is Python's formatting of a number. *)
Variable format_2f : A -> string.

Record ReportRow : Type := mkReportRow {
  r_state : text;
  r_district : text;
  r_time_period : text;
  r_enrolment_count : A;
  r_update_count : A;
  r_total_activity : A;
  r_z_score : A;
  r_anomaly_type : string;
  r_risk_severity : string;
  r_final_flag : string;
  r_recommendation : string
}.

Record Report : Type := mkReport {
  report_columns : list string;
  report_rows : list ReportRow
}.

Definition recommendation (row : FRow) : string :=
  if String.eqb (anomaly_type row) "Hot Spot"
  then "Activity " ++ format_2f (fabs (z_score (irow (frow row))))
       ++ " SD above state average – Review for abnormal spikes"
  else if String.eqb (anomaly_type row) "Dark Spot"
  then "Activity " ++ format_2f (fabs (z_score (irow (frow row))))
       ++ " SD below state average – Check service availability"
  else "".

Definition is_flagged (r : FRow) : bool := negb (String.eqb (final_flag r) "NORMAL").

(** The selected columns of a flagged row, with its recommendation. *)
Definition report_row (r : FRow) : ReportRow :=
  let b := zrow (irow (frow r)) in
  {| r_state := state b;
     r_district := district b;
     r_time_period := time_period b;
     r_enrolment_count := enrolment_count b;
     r_update_count := update_count b;
     r_total_activity := total_activity b;
     r_z_score := z_score (irow (frow r));
     r_anomaly_type := anomaly_type r;
     r_risk_severity := risk_severity r;
     r_final_flag := final_flag r;
     r_recommendation := recommendation r |}.

(** The order of [sort_values] on a text column: strings by code point,
    missing values last. *)
Definition text_compare (a b : text) : comparison :=
  match a, b with
  | Some x, Some y => String.compare x y
  | Some _, None => Lt
  | None, Some _ => Gt
  | None, None => Eq
  end.

(** Ascending on ['risk_severity', 'state', 'district']. *)
Definition key_compare (a b : ReportRow) : comparison :=
  match String.compare (r_risk_severity a) (r_risk_severity b) with
  | Eq =>
      match text_compare (r_state a) (r_state b) with
      | Eq => text_compare (r_district a) (r_district b)
      | c => c
      end
  | c => c
  end.

Definition key_leb (a b : ReportRow) : bool :=
  match key_compare a b with
  | Gt => false
  | _ => true
  end.

Definition key_le (a b : ReportRow) : Prop := key_leb a b = true.

(** The same order, spelled out on the tuple (risk_severity, state,
    district): the first component that differs decides. *)
Definition tuple_le (a b : ReportRow) : Prop :=
  let sev := String.compare (r_risk_severity a) (r_risk_severity b) in
  let st := text_compare (r_state a) (r_state b) in
  let di := text_compare (r_district a) (r_district b) in
  sev = Lt \/ (sev = Eq /\ (st = Lt \/ (st = Eq /\ di <> Gt))).

(** [sort_values] on several columns is stable: rows with equal keys keep
    their order. *)
Fixpoint insert_row (x : ReportRow) (l : list ReportRow) : list ReportRow :=
  match l with
  | [] => [x]
  | y :: t => if key_leb x y then x :: l else y :: insert_row x t
  end.

Definition sort_values (l : list ReportRow) : list ReportRow :=
  fold_right insert_row [] l.

Definition generate_flagged_report (df : list FRow) : Report :=
  let flagged := filter is_flagged df in
  {| report_columns :=
       ["state"; "district"; "time_period"; "enrolment_count"; "update_count";
        "total_activity"; "z_score"; "anomaly_type"; "risk_severity";
        "final_flag"; "recommendation"];
     report_rows := sort_values (map report_row flagged) |}.

(** *** Step 7: the run *)

(** The engine's part of the entry point: prepare, detect, report; an
    error of a stage ends the run. *)
Definition pipeline (data : RawFrame) : result Report :=
  data <- prepare_data data ;;
  results <- detect_anomalies data ;;
  Ok (generate_flagged_report results).

(** What the entry point ends with: the exported report, or the error it
    prints. *)
Inductive outcome : Type :=
| Exported (report : Report)
| Failed (e : exn).

End Engine.

Arguments CNA {A}.
Arguments CStr {A} s.

(** ** The specification's reading of the three decision procedures *)

Section Specification.

Variable A : Type.
Context {N : Num A}.

(** The Range-Outlier Scorer as the specification words it: four fences
    and five rules, the first rule that matches wins. *)
Definition iqr_flag_spec (q1 q3 v : A) : flag :=
  let iqr := fsub q3 q1 in
  let one_and_half := fdiv (fofZ 3) (fofZ 2) in
  let upper_medium := fadd q3 (fmul one_and_half iqr) in
  let upper_high := fadd q3 (fmul (fofZ 3) iqr) in
  let lower_medium := fsub q1 (fmul one_and_half iqr) in
  let lower_high := fsub q1 (fmul (fofZ 3) iqr) in
  if fgeb v upper_high then Hot_High
  else if fleb upper_medium v && fltb v upper_high then Hot_Medium
  else if fleb v lower_high then Dark_High
  else if fltb lower_high v && fleb v lower_medium then Dark_Medium
  else Normal.

(** A value meets one of the two Hot rules, one of the two Dark rules. *)
Definition iqr_hot (q1 q3 v : A) : bool :=
  let iqr := fsub q3 q1 in
  let upper_medium := fadd q3 (fmul (fdiv (fofZ 3) (fofZ 2)) iqr) in
  let upper_high := fadd q3 (fmul (fofZ 3) iqr) in
  fgeb v upper_high || (fleb upper_medium v && fltb v upper_high).

Definition iqr_dark (q1 q3 v : A) : bool :=
  let iqr := fsub q3 q1 in
  let lower_medium := fsub q1 (fmul (fdiv (fofZ 3) (fofZ 2)) iqr) in
  let lower_high := fsub q1 (fmul (fofZ 3) iqr) in
  fleb v lower_high || (fltb lower_high v && fleb v lower_medium).

(** The thresholds of the Standard-Score Scorer. *)
Definition zscore_flag_spec (score : A) : flag :=
  if fgeb score (fofZ 3) then Hot_High
  else if fleb (fofZ 2) score && fltb score (fofZ 3) then Hot_Medium
  else if fleb score (fofZ (-3)) then Dark_High
  else if fltb (fofZ (-3)) score && fleb score (fofZ (-2)) then Dark_Medium
  else Normal.

End Specification.

(** The Flag Reconciler as the specification words it: the category of a
    flag is its Hot/Dark/Normal prefix; five rules, first match wins. *)
Inductive category : Type :=
| Hot | Dark | Neutral.

Definition category_of (f : flag) : category :=
  match f with
  | Hot_High | Hot_Medium => Hot
  | Dark_High | Dark_Medium => Dark
  | Normal => Neutral
  end.

Definition flag_eqb (a b : flag) : bool :=
  match a, b with
  | Normal, Normal | Hot_High, Hot_High | Hot_Medium, Hot_Medium
  | Dark_High, Dark_High | Dark_Medium, Dark_Medium => true
  | _, _ => false
  end.

Definition is_cat (c : category) (f : flag) : bool :=
  match c, category_of f with
  | Hot, Hot | Dark, Dark | Neutral, Neutral => true
  | _, _ => false
  end.

Definition reconcile_spec (z i : flag) : verdict :=
  if (flag_eqb z Hot_High || flag_eqb i Hot_High) && is_cat Hot z && is_cat Hot i
  then HOT_SPOT_HIGH
  else if (flag_eqb z Dark_High || flag_eqb i Dark_High) && is_cat Dark z && is_cat Dark i
  then DARK_SPOT_HIGH
  else if is_cat Hot z || is_cat Hot i then HOT_SPOT_MEDIUM
  else if is_cat Dark z || is_cat Dark i then DARK_SPOT_MEDIUM
  else NORMAL.

Definition severity_spec (v : verdict) : string :=
  match v with
  | HOT_SPOT_HIGH | DARK_SPOT_HIGH => "High"
  | HOT_SPOT_MEDIUM | DARK_SPOT_MEDIUM => "Medium"
  | NORMAL => "Normal"
  end.

Definition type_spec (v : verdict) : string :=
  match v with
  | HOT_SPOT_HIGH | HOT_SPOT_MEDIUM => "Hot Spot"
  | DARK_SPOT_HIGH | DARK_SPOT_MEDIUM => "Dark Spot"
  | NORMAL => "Normal"
  end.

(** ** What the proofs use of the order of numbers *)

(** [<=] and [<] exclude each other, [<=] is transitive, and the small
    integers the thresholds are written with compare as integers do.
    Holds of binary64 (NaN included: it compares false with everything)
    and of the reals. *)
Class NumOrder (A : Type) {N : Num A} : Prop := {
  fleb_fltb : forall x y : A, fleb x y = true -> fltb y x = false;
  fleb_trans : forall x y z : A, fleb x y = true -> fleb y z = true -> fleb x z = true;
  fofZ_leb : forall a b : Z, (-3 <= a <= 3)%Z -> (-3 <= b <= 3)%Z ->
    fleb (fofZ a : A) (fofZ b) = (a <=? b)%Z
}.
Arguments NumOrder A {N}.

(** ** Sample inputs *)

Module Samples.

Definition row (s d : string) (e u : float) : Row float :=
  {| state := Some s; district := Some d; time_period := Some "2025-01";
     enrolment_count := e; update_count := u;
     total_activity := PrimFloat.add e u |}.

Definition raw (s : text) (d : string) (e u : cell float) : RawRow float :=
  {| raw_state := s; raw_district := Some d; raw_time_period := Some "2025-01";
     raw_enrolment_count := e; raw_update_count := u |}.

Definition all_columns : list string :=
  ["date_id"; "state"; "district"; "time_period"; "enrolment_count"; "update_count"].

(** A state with a single district record. *)
Definition lone_frame : RawFrame float :=
  {| columns := all_columns;
     raw_rows := [raw (Some "Goa") "North Goa" (CNum 3%float) (CNum 2%float)] |}.

Definition lone_group : list (Row float) := [row "Goa" "North Goa" 3%float 2%float].

(** Ten districts of one state; the last one far above the others. *)
Definition spread_group : list (Row float) :=
  map (fun v => row "Assam" "d" v 0%float)
      [1; 2; 3; 4; 5; 6; 7; 8; 9; 100]%float.

Definition stateless_row : Row float :=
  {| state := None; district := Some "Unknown"; time_period := Some "2025-01";
     enrolment_count := 7%float; update_count := 2%float;
     total_activity := 9%float |}.

(** A table whose second row has no state. *)
Definition stateless_frame : list (Row float) :=
  [row "Assam" "Kamrup" 4%float 1%float; stateless_row].

(** The same group with the flags of the two scorers, and its last row
    alone: the outlier. *)
Definition spread_zscored : list (ZRow float) :=
  calculate_zscore_flags (@total_activity float) spread_group.

Definition spread_flagged : list (IRow float) :=
  calculate_iqr_flags (@total_activity float) spread_zscored.

Definition outlier_flagged : list (IRow float) := skipn 9 spread_flagged.

(** Three districts with the same counts. *)
Definition flat_group : list (Row float) :=
  map (fun d => row "Sikkim" d 4%float 3%float) ["East"; "West"; "South"].

(** A group in exact arithmetic: five distinct values. *)
Definition exact_row (v : R) : Row R :=
  {| state := Some "Assam"; district := Some "d"; time_period := Some "2025-01";
     enrolment_count := v; update_count := 0%R; total_activity := v |}.

Definition exact_group : list (ZRow R) :=
  map (fun v => {| zrow := exact_row v; z_score := 0%R; z_flag := "Normal" |})
      [5; 1; 4; 2; 3]%R.

(** A raw table of two states: the ten districts above and the lone one. *)
Definition two_state_frame : RawFrame float :=
  {| columns := all_columns;
     raw_rows :=
       raw (Some "Goa") "North Goa" (CNum 3%float) (CNum 2%float)
       :: map (fun v => raw (Some "Assam") "d" (CNum v) (CNum 0%float))
              [1; 2; 3; 4; 5; 6; 7; 8; 9; 100]%float |}.

(** A table without the district column, and one with a count that is
    no number. *)
Definition no_district_frame : RawFrame float :=
  {| columns := ["state"; "time_period"; "enrolment_count"; "update_count"];
     raw_rows := [raw (Some "Goa") "" (CNum 3%float) (CNum 2%float)] |}.

Definition abc_frame : RawFrame float :=
  {| columns := all_columns;
     raw_rows := [raw (Some "Goa") "North Goa" (CStr "abc") (CNum 2%float);
                  raw (Some "Goa") "South Goa" (CNum 6%float) (CNum 1%float)] |}.

(** A text parser for the samples: it reads nothing as a number. *)
Definition no_parse (s : string) : option float := None.

End Samples.

(** * Properties *)

(** ** The order laws hold of both number types *)

Lemma SFcompare_antisym (a b : spec_float) :
  SFcompare b a = option_map CompOpp (SFcompare a b).
Proof.
  destruct a as [sa|sa| |sa ma ea], b as [sb|sb| |sb mb eb]; simpl;
    try destruct sa; try destruct sb; try reflexivity;
    rewrite (Z.compare_antisym ea eb);
    destruct (ea ?= eb)%Z; simpl; try reflexivity;
    rewrite !Pos.compare_cont_spec; simpl; rewrite (Pos.compare_antisym ma mb);
    destruct (ma ?= mb)%positive; reflexivity.
Qed.

Lemma SFleb_SFltb (a b : spec_float) : SFleb a b = true -> SFltb b a = false.
Proof.
  unfold SFleb, SFltb. rewrite (SFcompare_antisym a b).
  destruct (SFcompare a b) as [[]|]; simpl; congruence.
Qed.

Ltac compare_cases :=
  repeat match goal with
  | |- context [(?x ?= ?y)%Z] => destruct (Z.compare_spec x y)
  | H : context [(?x ?= ?y)%Z] |- _ => destruct (Z.compare_spec x y)
  | |- context [Pos.compare_cont Eq ?x ?y] =>
      rewrite (Pos.compare_cont_spec x y Eq); simpl Pos.switch_Eq
  | H : context [Pos.compare_cont Eq ?x ?y] |- _ =>
      rewrite (Pos.compare_cont_spec x y Eq) in H; simpl Pos.switch_Eq in H
  | |- context [(?x ?= ?y)%positive] => destruct (Pos.compare_spec x y)
  | H : context [(?x ?= ?y)%positive] |- _ => destruct (Pos.compare_spec x y)
  end.

Lemma SFleb_trans (a b c : spec_float) :
  SFleb a b = true -> SFleb b c = true -> SFleb a c = true.
Proof.
  unfold SFleb.
  destruct a as [sa|sa| |sa ma ea], b as [sb|sb| |sb mb eb], c as [sc|sc| |sc mc ec];
    simpl; try destruct sa; try destruct sb; try destruct sc; simpl;
    try reflexivity; try discriminate; intros H1 H2;
    compare_cases; simpl in *; try reflexivity; try discriminate; try lia.
Qed.

Lemma small_Z_cases (a : Z) :
  (-3 <= a <= 3)%Z ->
  a = (-3)%Z \/ a = (-2)%Z \/ a = (-1)%Z \/ a = 0%Z \/ a = 1%Z \/ a = 2%Z \/ a = 3%Z.
Proof. lia. Qed.

#[export] Instance FloatOrder : NumOrder float.
Proof.
  split.
  - intros x y. simpl. rewrite leb_spec, ltb_spec. apply SFleb_SFltb.
  - intros x y z. simpl. rewrite !leb_spec. apply SFleb_trans.
  - intros a b Ha Hb.
    destruct (small_Z_cases Ha) as [->|[->|[->|[->|[->|[->| ->]]]]]];
      destruct (small_Z_cases Hb) as [->|[->|[->|[->|[->|[->| ->]]]]]];
      vm_compute; reflexivity.
Qed.

(** Comparisons of real numbers in a goal, decided by linear arithmetic. *)
Ltac decide_reals :=
  repeat match goal with
         | |- context [Rle_dec ?a ?b] => destruct (Rle_dec a b); try (exfalso; lra)
         | |- context [Rlt_dec ?a ?b] => destruct (Rlt_dec a b); try (exfalso; lra)
         end.

#[export] Instance RealOrder : NumOrder R.
Proof.
  split; simpl; unfold Rleb, Rltb.
  - intros x y. destruct (Rle_dec x y), (Rlt_dec y x); try reflexivity; try discriminate.
    lra.
  - intros x y z. destruct (Rle_dec x y), (Rle_dec y z), (Rle_dec x z);
      try reflexivity; try discriminate. lra.
  - intros a b _ _. destruct (Rle_dec (IZR a) (IZR b)) as [H|H].
    + apply le_IZR in H. symmetry. apply Z.leb_le. exact H.
    + symmetry. apply Z.leb_gt. apply Z.nle_gt. intro Hab. apply H. apply IZR_le. exact Hab.
Qed.

(** ** The Flag Reconciler *)

(** The substring tests of [decide], on the five flag values, are the
    specification's tests on categories. *)
Lemma decide_reconcile (z i : flag) :
  decide (flag_str z) (flag_str i) = verdict_str (reconcile_spec z i).
Proof. destruct z, i; reflexivity. Qed.

Lemma severity_of_verdict (v : verdict) : severity_of (verdict_str v) = severity_spec v.
Proof. destruct v; reflexivity. Qed.

Lemma type_of_verdict (v : verdict) : type_of (verdict_str v) = type_spec v.
Proof. destruct v; reflexivity. Qed.

Lemma combine_flags_frame (A : Type) (df : list (IRow A)) :
  map (@frow A) (combine_flags df) = df.
Proof.
  unfold combine_flags. rewrite map_map. simpl. apply map_id.
Qed.

Lemma in_combine_flags (A : Type) (df : list (IRow A)) (out : FRow A) :
  In out (combine_flags df) -> out = combine_row (frow out).
Proof.
  unfold combine_flags. intros H. apply in_map_iff in H.
  destruct H as [r [<- _]]. reflexivity.
Qed.

(** C4: the reconciler returns one row for every row of the frame it is
    given, the row with three more columns.  For every pair of flags drawn
    from the five flag values, the verdict is the one of the five rules of
    the specification (first match wins), and the severity and the anomaly
    type are derived from that verdict; every row of the frame with this
    pair of flags has a row of the result that carries them, and every row
    of the result carries those of its pair.  The three columns are
    functions of the pair of flags alone, whatever the two texts. *)
Theorem combine_flags_reconciles (A : Type) (df : list (IRow A)) :
  map (@frow A) (combine_flags df) = df /\
  (forall z i : flag,
     let final := decide (flag_str z) (flag_str i) in
     final = verdict_str (reconcile_spec z i) /\
     severity_of final = severity_spec (reconcile_spec z i) /\
     type_of final = type_spec (reconcile_spec z i)) /\
  (forall (row : IRow A) (z i : flag),
     In row df ->
     z_flag (irow row) = flag_str z -> iqr_flag row = flag_str i ->
     exists out : FRow A,
       In out (combine_flags df) /\ frow out = row /\
       final_flag out = verdict_str (reconcile_spec z i) /\
       risk_severity out = severity_spec (reconcile_spec z i) /\
       anomaly_type out = type_spec (reconcile_spec z i)) /\
  (forall (out : FRow A) (z i : flag),
     In out (combine_flags df) ->
     z_flag (irow (frow out)) = flag_str z -> iqr_flag (frow out) = flag_str i ->
     final_flag out = verdict_str (reconcile_spec z i) /\
     risk_severity out = severity_spec (reconcile_spec z i) /\
     anomaly_type out = type_spec (reconcile_spec z i)) /\
  (forall out out' : FRow A,
     In out (combine_flags df) -> In out' (combine_flags df) ->
     z_flag (irow (frow out)) = z_flag (irow (frow out')) ->
     iqr_flag (frow out) = iqr_flag (frow out') ->
     final_flag out = final_flag out' /\
     risk_severity out = risk_severity out' /\
     anomaly_type out = anomaly_type out').
Proof.
  split; [apply combine_flags_frame|]. split; [|split; [|split]].
  - intros z i final. subst final.
    rewrite decide_reconcile, severity_of_verdict, type_of_verdict. repeat split.
  - intros row z i Hin Hz Hi. exists (combine_row row).
    split; [unfold combine_flags; apply in_map; exact Hin|].
    simpl. rewrite Hz, Hi, decide_reconcile, severity_of_verdict, type_of_verdict.
    repeat split.
  - intros out z i Hin Hz Hi. rewrite (in_combine_flags df out Hin). simpl.
    rewrite Hz, Hi, decide_reconcile, severity_of_verdict, type_of_verdict.
    repeat split.
  - intros out out' Hin Hin' Hz Hi.
    rewrite (in_combine_flags df out Hin), (in_combine_flags df out' Hin'). simpl.
    rewrite Hz, Hi. repeat split.
Qed.

(** The outlier of the sample group: its z-score is about 2.84
    (Hot_Medium) and it lies above the upper high fence (Hot_High). *)
Lemma outlier_flags :
  map (fun r => (z_flag (irow r), iqr_flag r)) Samples.outlier_flagged
  = [("Hot_Medium", "Hot_High")].
Proof. vm_compute. reflexivity. Qed.

Lemma combine_flags_reconciles_witness :
  exists out : FRow float,
    combine_flags Samples.outlier_flagged = [out] /\
    frow out = hd (frow out) Samples.outlier_flagged /\
    final_flag out = "HOT_SPOT_HIGH" /\ risk_severity out = "High" /\
    anomaly_type out = "Hot Spot".
Proof.
  destruct Samples.outlier_flagged as [|row rest] eqn:E;
    [vm_compute in E; discriminate E|].
  assert (Hflags : map (fun r => (z_flag (irow r), iqr_flag r)) (row :: rest)
                   = [("Hot_Medium", "Hot_High")])
    by (rewrite <- E; apply outlier_flags).
  destruct rest as [|row' rest]; [|discriminate Hflags].
  injection Hflags as Hz Hi.
  destruct (combine_flags_reconciles [row]) as [_ [_ [H _]]].
  destruct (H row Hot_Medium Hot_High (or_introl eq_refl) Hz Hi)
    as [out [Hin [Hrow [Hf [Hs Ht]]]]].
  exists out. destruct Hin as [<-|[]].
  repeat split; assumption.
Defined.

(** C5 as the specification states it fails on the outlier of the sample
    group: the engine does not reconcile it to HOT_SPOT_MEDIUM. *)
Lemma hot_medium_hot_high_not_medium :
  exists out : FRow float,
    In out (combine_flags Samples.outlier_flagged) /\
    z_flag (irow (frow out)) = "Hot_Medium" /\
    iqr_flag (frow out) = "Hot_High" /\
    final_flag out <> "HOT_SPOT_MEDIUM".
Proof.
  destruct (combine_flags Samples.outlier_flagged) as [|out rest] eqn:E.
  - vm_compute in E. discriminate E.
  - exists out. split; [left; reflexivity|].
    assert (Hout : map (fun r : FRow float =>
                          (z_flag (irow (frow r)), iqr_flag (frow r), final_flag r))
                       (out :: rest)
                   = [("Hot_Medium", "Hot_High", "HOT_SPOT_HIGH")]).
    { rewrite <- E. vm_compute. reflexivity. }
    simpl in Hout. injection Hout as Hz Hi Hf _.
    repeat split; try assumption. rewrite Hf. discriminate.
Qed.

(** C5, as amended: a row whose z_flag is Hot_Medium and whose iqr_flag
    is Hot_High is reconciled to HOT_SPOT_HIGH by the first rule (one flag
    is Hot_High and both are Hot), with severity High and type Hot Spot. *)
Theorem hot_medium_hot_high_is_high (A : Type) (df : list (IRow A)) (out : FRow A) :
  In out (combine_flags df) ->
  z_flag (irow (frow out)) = "Hot_Medium" ->
  iqr_flag (frow out) = "Hot_High" ->
  final_flag out = "HOT_SPOT_HIGH" /\
  risk_severity out = "High" /\
  anomaly_type out = "Hot Spot".
Proof.
  intros Hin Hz Hi. rewrite (in_combine_flags df out Hin). simpl.
  rewrite Hz, Hi. repeat split.
Qed.

Lemma hot_medium_hot_high_is_high_witness :
  Forall (fun out : FRow float => final_flag out = "HOT_SPOT_HIGH")
         (combine_flags Samples.outlier_flagged).
Proof.
  apply Forall_forall. intros out Hin.
  apply (hot_medium_hot_high_is_high Samples.outlier_flagged out Hin).
  - destruct Hin as [<-|[]]. vm_compute. reflexivity.
  - destruct Hin as [<-|[]]. vm_compute. reflexivity.
Defined.

(** ** The Standard-Score Scorer *)

Section OrderFacts.

Variable A : Type.
Context {N : Num A} {L : NumOrder A}.

(** Two small integers in the wrong order bound no number from both
    sides. *)
Lemma between_small (a b : Z) (x : A) :
  (-3 <= a <= 3)%Z -> (-3 <= b <= 3)%Z -> (b < a)%Z ->
  fleb (fofZ a) x = true -> fleb x (fofZ b) = false.
Proof.
  intros Ha Hb Hlt Hax. destruct (fleb x (fofZ b)) eqn:Hxb; [|reflexivity].
  pose proof (fleb_trans _ _ _ Hax Hxb) as H.
  rewrite (fofZ_leb Ha Hb) in H. apply Z.leb_le in H. lia.
Qed.

(** The four masks of the z-score flags, as the order constrains them. *)
Lemma zscore_masks (z : A) :
  (fleb (fofZ 3) z = true -> fltb z (fofZ 3) = false) /\
  (fleb (fofZ 3) z = true -> fleb z (fofZ (-3)) = false) /\
  (fleb (fofZ 3) z = true -> fleb z (fofZ (-2)) = false) /\
  (fleb (fofZ 2) z = true -> fleb z (fofZ (-3)) = false) /\
  (fleb (fofZ 2) z = true -> fleb z (fofZ (-2)) = false) /\
  (fleb z (fofZ (-3)) = true -> fltb (fofZ (-3)) z = false).
Proof.
  repeat split; intros H.
  - apply (fleb_fltb _ _ H).
  - apply (@between_small 3 (-3) z); try lia; exact H.
  - apply (@between_small 3 (-2) z); try lia; exact H.
  - apply (@between_small 2 (-3) z); try lia; exact H.
  - apply (@between_small 2 (-2) z); try lia; exact H.
  - apply (fleb_fltb _ _ H).
Qed.

Lemma zscore_flag_refines (z : A) : zscore_flag z = flag_str (zscore_flag_spec z).
Proof.
  destruct (zscore_masks z) as [H1 [H2 [H3 [H4 [H5 H6]]]]].
  unfold zscore_flag, zscore_flag_spec, loc_assign, fgeb, fgtb.
  destruct (fleb (fofZ 3) z); [rewrite H1, H2, H3 by reflexivity|];
    (destruct (fleb (fofZ 2) z); [rewrite ?H4, ?H5 by reflexivity|]);
    (destruct (fleb z (fofZ (-3))); [rewrite ?H6 by reflexivity|]);
    destruct (fltb z (fofZ 3)), (fleb z (fofZ (-2))), (fltb (fofZ (-3)) z);
    reflexivity.
Qed.

(** Each flag value is written exactly on its own interval of scores. *)
Lemma zscore_flag_intervals (z : A) :
  (zscore_flag z = "Hot_High" <-> fgeb z (fofZ 3) = true) /\
  (zscore_flag z = "Hot_Medium" <-> fleb (fofZ 2) z && fltb z (fofZ 3) = true) /\
  (zscore_flag z = "Dark_High" <-> fleb z (fofZ (-3)) = true) /\
  (zscore_flag z = "Dark_Medium" <-> fltb (fofZ (-3)) z && fleb z (fofZ (-2)) = true) /\
  (zscore_flag z = "Normal" <->
     fgeb z (fofZ 3) = false /\ fleb (fofZ 2) z && fltb z (fofZ 3) = false /\
     fleb z (fofZ (-3)) = false /\ fltb (fofZ (-3)) z && fleb z (fofZ (-2)) = false).
Proof.
  destruct (zscore_masks z) as [H1 [H2 [H3 [H4 [H5 H6]]]]].
  unfold zscore_flag, loc_assign, fgeb, fgtb.
  destruct (fleb (fofZ 3) z); [rewrite H1, H2, H3 by reflexivity|];
    (destruct (fleb (fofZ 2) z); [rewrite ?H4, ?H5 by reflexivity|]);
    (destruct (fleb z (fofZ (-3))); [rewrite ?H6 by reflexivity|]);
    destruct (fltb z (fofZ 3)), (fleb z (fofZ (-2))), (fltb (fofZ (-3)) z);
    simpl; repeat split; intros; try discriminate; try reflexivity;
    repeat match goal with H : _ /\ _ |- _ => destruct H end; try discriminate.
Qed.

Lemma zscore_flag_zero : zscore_flag (fofZ 0 : A) = "Normal".
Proof.
  apply zscore_flag_intervals. unfold fgeb.
  rewrite !(@fofZ_leb A N L) by lia. simpl.
  rewrite andb_false_r. repeat split.
Qed.

End OrderFacts.

(** *** The two degenerate groups *)

Lemma series_std_short (A : Type) (N : Num A) (l : list A) :
  (List.length l <= 1)%nat -> series_std l = None.
Proof.
  intros H. unfold series_std.
  destruct (Nat.leb_spec (List.length l) 1) as [_|H']; [reflexivity|lia].
Qed.

(** On binary64 a float is zero or NaN when it is one of 0.0, -0.0 and
    NaN; the guard [std == 0 or np.isnan(std)] holds of exactly these. *)
Definition zero_or_nan (x : float) : Prop :=
  x = 0%float \/ x = (-0)%float \/ x = nan.

Lemma of_spec_zero_or_nan (x : float) :
  (exists s, Prim2SF x = S754_zero s) \/ Prim2SF x = S754_nan -> zero_or_nan x.
Proof.
  intros H. rewrite <- (SF2Prim_Prim2SF x).
  destruct H as [[[|] ->]| ->]; unfold zero_or_nan; simpl; auto.
Qed.

(** The difference of two floats that compare equal is a zero, or NaN
    for two infinities: nothing is rounded. *)
Lemma sub_equal (a b : float) : PrimFloat.eqb a b = true -> zero_or_nan (a - b).
Proof.
  rewrite eqb_spec. intros H. apply of_spec_zero_or_nan. rewrite sub_spec.
  unfold SFeqb in H. unfold SF64sub.
  destruct (Prim2SF a) as [sa|sa| |sa ma ea], (Prim2SF b) as [sb|sb| |sb mb eb];
    simpl in H; try discriminate H.
  - left. destruct sa, sb; simpl; eauto.
  - destruct sb; discriminate H.
  - destruct sb; discriminate H.
  - destruct sa; discriminate H.
  - right. destruct sa, sb; try discriminate H; reflexivity.
  - destruct sa; discriminate H.
  - destruct sa; discriminate H.
  - destruct sb; discriminate H.
  - left. exists false.
    assert (E : sa = sb /\ ea = eb /\ ma = mb).
    { destruct sa, sb; try discriminate H;
        destruct (Z.compare_spec ea eb) as [He|He|He]; try discriminate H;
        (split; [reflexivity|split; [exact He|]]);
        apply Pos.compare_eq;
        change (PosDef.Pos.compare_cont Eq ma mb) with (Pos.compare ma mb) in H;
        destruct (Pos.compare ma mb) eqn:C; simpl in H; try discriminate H;
        reflexivity. }
    destruct E as [-> [-> ->]]. cbn [SFsub]. cbv zeta. rewrite Z.sub_diag. reflexivity.
Qed.

Lemma zero_or_nan_mul (d : float) : zero_or_nan d -> zero_or_nan (d * d).
Proof. intros [->|[->| ->]]; unfold zero_or_nan; vm_compute; auto. Qed.

Lemma zero_or_nan_add (a b : float) :
  zero_or_nan a -> zero_or_nan b -> zero_or_nan (a + b).
Proof.
  intros [->|[->| ->]] [->|[->| ->]]; unfold zero_or_nan; vm_compute; auto.
Qed.

Lemma zero_or_nan_div (s c : float) : zero_or_nan s -> zero_or_nan (s / c).
Proof.
  intros H. apply of_spec_zero_or_nan. rewrite div_spec. unfold SF64div.
  destruct H as [->|[->| ->]]; simpl; destruct (Prim2SF c); simpl; eauto.
Qed.

Lemma zero_or_nan_sqrt (s : float) : zero_or_nan s -> zero_or_nan (PrimFloat.sqrt s).
Proof. intros [->|[->| ->]]; unfold zero_or_nan; vm_compute; auto. Qed.

Lemma zero_or_nan_guard (s : float) :
  zero_or_nan s -> PrimFloat.eqb s 0 || PrimFloat.is_nan s = true.
Proof. intros [->|[->| ->]]; vm_compute; reflexivity. Qed.

Lemma zero_or_nan_sum (l : list float) (acc : float) :
  zero_or_nan acc -> Forall zero_or_nan l -> zero_or_nan (fold_left PrimFloat.add l acc).
Proof.
  intros Hacc H. revert acc Hacc. induction H as [|x l Hx _ IH]; intros acc Hacc.
  - exact Hacc.
  - simpl. apply IH. apply zero_or_nan_add; assumption.
Qed.

(** On binary64, a series of identical values whose computed mean compares
    equal to the value has a deviation that is zero or NaN: the distances
    to the mean are computed without rounding. *)
Lemma std_degenerate_equal_mean (l : list float) (v : float) :
  (forall x, In x l -> x = v) ->
  PrimFloat.eqb (series_mean l) v = true ->
  std_degenerate (series_std l) = true.
Proof.
  intros H Hmean. unfold series_std.
  destruct (List.length l <=? 1)%nat; [reflexivity|].
  cbv zeta. cbn [std_degenerate]. apply zero_or_nan_guard.
  apply zero_or_nan_sqrt, zero_or_nan_div. apply zero_or_nan_sum.
  - left. vm_compute. reflexivity.
  - apply Forall_forall. intros q Hq. apply in_map_iff in Hq.
    destruct Hq as [x [<- Hx]]. rewrite (H x Hx).
    apply zero_or_nan_mul, sub_equal, Hmean.
Qed.

(** *** The scorer on a group *)

Lemma zscore_frame (A : Type) (N : Num A) (metric : Row A -> A) (g : list (Row A)) :
  map (@zrow A) (calculate_zscore_flags metric g) = g.
Proof.
  unfold calculate_zscore_flags. rewrite map_map. simpl. apply map_id.
Qed.

Lemma in_zscore (A : Type) (N : Num A) (metric : Row A -> A) (g : list (Row A))
  (r : ZRow A) :
  In r (calculate_zscore_flags metric g) ->
  In (zrow r) g /\
  z_score r = zscore_of (series_mean (map metric g)) (series_std (map metric g))
                        (metric (zrow r)) /\
  z_flag r = zscore_flag (z_score r).
Proof.
  unfold calculate_zscore_flags. intros H. apply in_map_iff in H.
  destruct H as [x [<- Hx]]. simpl. auto.
Qed.

(** C3, as amended: the scorer keeps the rows of the group; when the
    computed sample standard deviation is zero or undefined (undefined for
    a group of at most one row) every row gets the score 0.0 and the flag
    Normal; otherwise every row gets (value - mean) / stddev and the flag
    of the interval its score lies in: Hot_High iff score >= 3, Hot_Medium
    iff 2 <= score < 3, Dark_High iff score <= -3, Dark_Medium iff
    -3 < score <= -2, Normal otherwise.  This holds of every number type
    with the order laws, binary64 among them.  On binary64 a group of
    identical values has such a deviation, and every row the score 0.0
    and the flag Normal, when its computed mean compares equal to the
    value. *)
Theorem zscore_flags_specification :
  (forall (A : Type) (N : Num A), NumOrder A ->
   forall (metric : Row A -> A) (group_df : list (Row A)),
     let values := map metric group_df in
     let out := calculate_zscore_flags metric group_df in
     map (@zrow A) out = group_df /\
     ((List.length group_df <= 1)%nat -> std_degenerate (series_std values) = true) /\
     (std_degenerate (series_std values) = true ->
      forall r, In r out -> z_score r = fofZ 0 /\ z_flag r = "Normal") /\
     (std_degenerate (series_std values) = false ->
      exists stddev, series_std values = Some stddev /\
      forall r, In r out ->
        let score := z_score r in
        score = fdiv (fsub (metric (zrow r)) (series_mean values)) stddev /\
        z_flag r = flag_str (zscore_flag_spec score) /\
        (z_flag r = "Hot_High" <-> fgeb score (fofZ 3) = true) /\
        (z_flag r = "Hot_Medium" <-> fleb (fofZ 2) score && fltb score (fofZ 3) = true) /\
        (z_flag r = "Dark_High" <-> fleb score (fofZ (-3)) = true) /\
        (z_flag r = "Dark_Medium" <->
           fltb (fofZ (-3)) score && fleb score (fofZ (-2)) = true) /\
        (z_flag r = "Normal" <->
           fgeb score (fofZ 3) = false /\
           fleb (fofZ 2) score && fltb score (fofZ 3) = false /\
           fleb score (fofZ (-3)) = false /\
           fltb (fofZ (-3)) score && fleb score (fofZ (-2)) = false)))
  /\
  (forall (metric : Row float -> float) (group_df : list (Row float)) (v : float),
     (forall r, In r group_df -> metric r = v) ->
     feqb (series_mean (map metric group_df)) v = true ->
     std_degenerate (series_std (map metric group_df)) = true /\
     forall r, In r (calculate_zscore_flags metric group_df) ->
       z_score r = 0%float /\ z_flag r = "Normal").
Proof.
  split.
  - intros A N L metric g values out. subst values out.
    split; [apply zscore_frame|]. split; [|split].
    + intros Hlen. rewrite series_std_short; [reflexivity|].
      rewrite length_map. exact Hlen.
    + intros Hdeg r Hr. destruct (in_zscore _ _ _ _ Hr) as [_ [Hz Hf]].
      assert (Hzero : z_score r = fofZ 0).
      { rewrite Hz. unfold zscore_of.
        destruct (series_std (map metric g)); [rewrite Hdeg|]; reflexivity. }
      split; [exact Hzero|]. rewrite Hf, Hzero. apply (zscore_flag_zero (L := L)).
    + intros Hdeg. destruct (series_std (map metric g)) as [sd|] eqn:Hsd;
        [|discriminate Hdeg].
      exists sd. split; [reflexivity|]. intros r Hr score.
      destruct (in_zscore _ _ _ _ Hr) as [_ [Hz Hf]]. subst score.
      split.
      { rewrite Hz, Hsd. unfold zscore_of. rewrite Hdeg. reflexivity. }
      rewrite Hf. split; [apply (zscore_flag_refines (L := L))|].
      apply (zscore_flag_intervals (L := L)).
  - intros metric g v H Hmean.
    assert (Hdeg : std_degenerate (series_std (map metric g)) = true).
    { apply (std_degenerate_equal_mean (v := v)); [|exact Hmean].
      intros x Hx. apply in_map_iff in Hx. destruct Hx as [r [<- Hr]]. apply H, Hr. }
    split; [exact Hdeg|]. intros r Hr.
    destruct (in_zscore _ _ _ _ Hr) as [_ [Hz Hf]].
    assert (Hzero : z_score r = 0%float).
    { rewrite Hz. unfold zscore_of.
      destruct (series_std (map metric g)); [rewrite Hdeg|]; reflexivity. }
    split; [exact Hzero|]. rewrite Hf, Hzero. vm_compute. reflexivity.
Qed.

(** Identical integer counts on binary64: the sums are exact, the
    deviation is zero and the guard is taken. *)
Example flat_group_scores :
  map (fun r : ZRow float => (z_score r, z_flag r))
      (calculate_zscore_flags (@total_activity float) Samples.flat_group)
  = [(0%float, "Normal"); (0%float, "Normal"); (0%float, "Normal")].
Proof. vm_compute. reflexivity. Qed.

(** Three districts with the same activity, 0.1 (the nearest binary64
    number): the sum 0.1 + 0.1 + 0.1 is rounded, the computed mean is not
    the value, and the computed deviation is about 1.7e-17. *)
Definition tenth : float := 0x1.999999999999ap-4%float.

Definition tenth_group : list (Row float) :=
  map (fun d => Samples.row "Sikkim" d tenth 0%float) ["East"; "West"; "South"].

(** C3 as the specification states it fails on this group: all values are
    identical, the guard is not taken and no record has the score 0.0
    (each has about -0.816). *)
Lemma identical_values_scored :
  (forall r, In r tenth_group -> total_activity r = tenth) /\
  std_degenerate (series_std (map (@total_activity float) tenth_group)) = false /\
  List.length (calculate_zscore_flags (@total_activity float) tenth_group) = 3%nat /\
  Forall (fun r : ZRow float =>
            z_score r <> 0%float /\ feqb (z_score r) 0%float = false /\
            fltb (z_score r) 0%float = true)
         (calculate_zscore_flags (@total_activity float) tenth_group).
Proof.
  split; [|split; [|split]].
  - intros r [<-|[<-|[<-|[]]]]; vm_compute; reflexivity.
  - vm_compute. reflexivity.
  - reflexivity.
  - repeat constructor; try (vm_compute; reflexivity);
      intros H; apply (f_equal (fun x => PrimFloat.eqb x 0%float)) in H;
      vm_compute in H; discriminate H.
Qed.

Lemma zscore_flags_specification_witness :
  (map (@zrow float) (calculate_zscore_flags (@total_activity float) Samples.spread_group)
   = Samples.spread_group /\
   std_degenerate (series_std (map (@total_activity float) Samples.spread_group)) = false /\
   Forall (fun r : ZRow float => z_flag r = flag_str (zscore_flag_spec (z_score r)))
          (calculate_zscore_flags (@total_activity float) Samples.spread_group)) /\
  std_degenerate (series_std (map (@total_activity float) Samples.flat_group)) = true.
Proof.
  split.
  - destruct (proj1 zscore_flags_specification float FloatNum FloatOrder
                (@total_activity float) Samples.spread_group) as [Hf [_ [_ Hs]]].
    split; [exact Hf|].
    assert (Hd : std_degenerate
                   (series_std (map (@total_activity float) Samples.spread_group))
                 = false) by (vm_compute; reflexivity).
    split; [exact Hd|].
    destruct (Hs Hd) as [sd [_ Hr]].
    apply Forall_forall. intros r Hin. apply (Hr r Hin).
  - refine (proj1 (proj2 zscore_flags_specification (@total_activity float)
                     Samples.flat_group 7%float _ _)).
    + intros r [<-|[<-|[<-|[]]]]; vm_compute; reflexivity.
    + vm_compute. reflexivity.
Defined.

(** ** The Range-Outlier Scorer *)

Lemma iqr_frame (A : Type) (N : Num A) (metric : Row A -> A) (g : list (ZRow A)) :
  map (@irow A) (calculate_iqr_flags metric g) = g.
Proof.
  unfold calculate_iqr_flags. rewrite map_map. simpl. apply map_id.
Qed.

Lemma in_iqr (A : Type) (N : Num A) (metric : Row A -> A) (g : list (ZRow A))
  (r : IRow A) :
  In r (calculate_iqr_flags metric g) ->
  In (irow r) g /\
  iqr_flag r = iqr_flag_of
                 (series_quantile 1 4 (map (fun x => metric (zrow x)) g))
                 (series_quantile 3 4 (map (fun x => metric (zrow x)) g))
                 (metric (zrow (irow r))).
Proof.
  unfold calculate_iqr_flags. intros H. apply in_map_iff in H.
  destruct H as [x [<- Hx]]. simpl. auto.
Qed.

(** The four assignments are made in the order of the source, so the one
    made last stands: the Dark rules override the Hot rules. *)
Lemma iqr_flag_last_write (A : Type) (N : Num A) (q1 q3 v : A) :
  let iqr := fsub q3 q1 in
  let lower_medium := fsub q1 (fmul (fdiv (fofZ 3) (fofZ 2)) iqr) in
  let lower_high := fsub q1 (fmul (fofZ 3) iqr) in
  let upper_medium := fadd q3 (fmul (fdiv (fofZ 3) (fofZ 2)) iqr) in
  let upper_high := fadd q3 (fmul (fofZ 3) iqr) in
  iqr_flag_of q1 q3 v =
    if fleb v lower_medium && fgtb v lower_high then "Dark_Medium"
    else if fleb v lower_high then "Dark_High"
    else if fgeb v upper_medium && fltb v upper_high then "Hot_Medium"
    else if fgeb v upper_high then "Hot_High"
    else "Normal".
Proof.
  simpl. unfold iqr_flag_of, loc_assign. reflexivity.
Qed.

(** Where no Hot rule and Dark rule hold at once, the last write is the
    first match of the specification's precedence. *)
Lemma iqr_flag_refines (A : Type) (N : Num A) (L : NumOrder A) (q1 q3 v : A) :
  iqr_hot q1 q3 v && iqr_dark q1 q3 v = false ->
  iqr_flag_of q1 q3 v = flag_str (iqr_flag_spec q1 q3 v).
Proof.
  unfold iqr_hot, iqr_dark, iqr_flag_of, iqr_flag_spec, loc_assign, fgeb, fgtb.
  set (iqr := fsub q3 q1).
  set (um := fadd q3 (fmul (fdiv (fofZ 3) (fofZ 2)) iqr)).
  set (uh := fadd q3 (fmul (fofZ 3) iqr)).
  set (lm := fsub q1 (fmul (fdiv (fofZ 3) (fofZ 2)) iqr)).
  set (lh := fsub q1 (fmul (fofZ 3) iqr)).
  pose proof (@fleb_fltb A N L uh v) as H1.
  pose proof (@fleb_fltb A N L v lh) as H2.
  destruct (fleb uh v); [rewrite H1 by reflexivity|];
    (destruct (fleb v lh); [rewrite H2 by reflexivity|]);
    destruct (fleb um v), (fleb v lm); try destruct (fltb v uh);
    try destruct (fltb lh v); simpl; intros H; try discriminate H; reflexivity.
Qed.

(** In exact arithmetic a positive interquartile range keeps the upper
    fences above the lower ones: no value meets a Hot and a Dark rule. *)
Lemma iqr_positive_no_overlap (q1 q3 v : R) :
  (0 < q3 - q1)%R -> iqr_hot q1 q3 v && iqr_dark q1 q3 v = false.
Proof.
  intros Hpos. unfold iqr_hot, iqr_dark, fgeb. simpl. unfold Rleb, Rltb.
  decide_reals; reflexivity.
Qed.

(** C2, as amended: the scorer keeps the rows of the group, and every row
    whose value does not meet a Hot rule and a Dark rule at once gets the
    flag of the specification's precedence on the group's quartiles, with
    the strictness of each comparison as given: Hot_High if
    v >= Q3 + 3.0*IQR; else Hot_Medium if Q3 + 1.5*IQR <= v < Q3 + 3.0*IQR;
    else Dark_High if v <= Q1 - 3.0*IQR; else Dark_Medium if
    Q1 - 3.0*IQR < v <= Q1 - 1.5*IQR; else Normal.  In exact arithmetic
    that is every row of a group whose IQR is positive. *)
Theorem iqr_flags_precedence :
  (forall (A : Type) (N : Num A), NumOrder A ->
   forall (metric : Row A -> A) (group_df : list (ZRow A)),
     let values := map (fun r => metric (zrow r)) group_df in
     let Q1 := series_quantile 1 4 values in
     let Q3 := series_quantile 3 4 values in
     let out := calculate_iqr_flags metric group_df in
     map (@irow A) out = group_df /\
     forall r, In r out ->
       let v := metric (zrow (irow r)) in
       iqr_hot Q1 Q3 v && iqr_dark Q1 Q3 v = false ->
       iqr_flag r = flag_str (iqr_flag_spec Q1 Q3 v))
  /\
  (forall (metric : Row R -> R) (group_df : list (ZRow R)),
     let values := map (fun r => metric (zrow r)) group_df in
     let Q1 := series_quantile 1 4 values in
     let Q3 := series_quantile 3 4 values in
     (0 < Q3 - Q1)%R ->
     forall r, In r (calculate_iqr_flags metric group_df) ->
       iqr_flag r = flag_str (iqr_flag_spec Q1 Q3 (metric (zrow (irow r))))).
Proof.
  split.
  - intros A N L metric g values Q1 Q3 out. subst values Q1 Q3 out.
    split; [apply iqr_frame|]. intros r Hr v Hno. subst v.
    destruct (in_iqr _ _ _ _ Hr) as [_ Hflag]. rewrite Hflag.
    apply (iqr_flag_refines L). exact Hno.
  - intros metric g values Q1 Q3 Hpos r Hr. subst values Q1 Q3.
    destruct (in_iqr _ _ _ _ Hr) as [_ Hflag]. rewrite Hflag.
    apply (iqr_flag_refines RealOrder). apply iqr_positive_no_overlap. exact Hpos.
Qed.

(** The quartiles of the exact sample group: its sorted values are
    1, 2, 3, 4, 5, and the positions 1 and 3 need no interpolation. *)
Lemma exact_group_quartiles :
  series_quantile 1 4 (map (fun z => total_activity (zrow z)) Samples.exact_group) = 2%R /\
  series_quantile 3 4 (map (fun z => total_activity (zrow z)) Samples.exact_group) = 4%R.
Proof.
  change (map (fun z => total_activity (zrow z)) Samples.exact_group)
    with [5; 1; 4; 2; 3]%R.
  assert (Hs : sort_series [5; 1; 4; 2; 3]%R = [1; 2; 3; 4; 5]%R).
  { unfold sort_series.
    repeat (cbn [fold_right insert_value fleb RealNum]; unfold Rleb; decide_reals).
    reflexivity. }
  unfold series_quantile. rewrite Hs.
  change (List.length [5; 1; 4; 2; 3]%R - 1)%nat with 4%nat.
  change (4 * 1 / 4)%nat with 1%nat. change (4 * 3 / 4)%nat with 3%nat.
  change ((4 * 1) mod 4)%nat with 0%nat. change ((4 * 3) mod 4)%nat with 0%nat.
  cbn [nth Nat.min Nat.add]. unfold lerp, fgeb. simpl. unfold Rleb.
  split; decide_reals; lra.
Qed.

Lemma iqr_flags_precedence_witness :
  Forall (fun r : IRow float =>
            iqr_flag r =
            flag_str (iqr_flag_spec
                        (series_quantile 1 4
                           (map (fun z => total_activity (zrow z)) Samples.spread_zscored))
                        (series_quantile 3 4
                           (map (fun z => total_activity (zrow z)) Samples.spread_zscored))
                        (total_activity (zrow (irow r)))))
         (calculate_iqr_flags (@total_activity float) Samples.spread_zscored) /\
  Forall (fun r : IRow R =>
            iqr_flag r =
            flag_str (iqr_flag_spec 2%R 4%R (total_activity (zrow (irow r)))))
         (calculate_iqr_flags (@total_activity R) Samples.exact_group).
Proof.
  split.
  - apply Forall_forall. intros r Hin.
    destruct (proj1 iqr_flags_precedence float FloatNum FloatOrder (@total_activity float)
                Samples.spread_zscored) as [_ H].
    apply (H r Hin). clear H. vm_compute in Hin.
    repeat (destruct Hin as [<-|Hin]; [vm_compute; reflexivity|]). destruct Hin.
  - apply Forall_forall. intros r Hin.
    destruct exact_group_quartiles as [H1 H3].
    pose proof (proj2 iqr_flags_precedence (@total_activity R) Samples.exact_group) as H.
    cbv zeta in H. rewrite H1, H3 in H. apply H; [lra|exact Hin].
Defined.

(** C2 as the specification states it fails on a group of one row: the
    fences collapse onto the value, which meets the Hot_High and the
    Dark_High rule at once, and the later assignment (Dark_High) stands
    where the specification's precedence gives Hot_High. *)
Lemma iqr_overlap_takes_dark :
  let g := calculate_zscore_flags (@total_activity float) Samples.lone_group in
  let values := map (fun z : ZRow float => total_activity (zrow z)) g in
  let Q1 := series_quantile 1 4 values in
  let Q3 := series_quantile 3 4 values in
  map (fun r : IRow float =>
         (iqr_flag r, flag_str (iqr_flag_spec Q1 Q3 (total_activity (zrow (irow r))))))
      (calculate_iqr_flags (@total_activity float) g)
  = [("Dark_High", "Hot_High")] /\
  ~ (forall r : IRow float,
       In r (calculate_iqr_flags (@total_activity float) g) ->
       iqr_flag r = flag_str (iqr_flag_spec Q1 Q3 (total_activity (zrow (irow r))))).
Proof.
  cbv zeta. split.
  - vm_compute. reflexivity.
  - intros H.
    destruct (calculate_iqr_flags (@total_activity float)
                (calculate_zscore_flags (@total_activity float) Samples.lone_group))
      as [|r rest] eqn:E.
    + vm_compute in E. discriminate E.
    + specialize (H r (or_introl eq_refl)).
      assert (Hr : (iqr_flag r,
                    flag_str (iqr_flag_spec
                      (series_quantile 1 4 (map (fun z : ZRow float => total_activity (zrow z))
                         (calculate_zscore_flags (@total_activity float) Samples.lone_group)))
                      (series_quantile 3 4 (map (fun z : ZRow float => total_activity (zrow z))
                         (calculate_zscore_flags (@total_activity float) Samples.lone_group)))
                      (total_activity (zrow (irow r)))))
                   = ("Dark_High", "Hot_High")).
      { assert (Hhd : hd_error (r :: rest) = Some r) by reflexivity.
        rewrite <- E in Hhd. vm_compute in Hhd. injection Hhd as <-.
        vm_compute. reflexivity. }
      rewrite <- H in Hr. injection Hr as H1 H2. rewrite H1 in H2. discriminate H2.
Qed.

(** ** A group of one row *)

(** In exact arithmetic, both quartiles of a series of one value are the
    value. *)
Lemma series_quantile_single (qn : nat) (x : R) :
  (qn < 4)%nat -> series_quantile qn 4 [x] = x.
Proof.
  intros Hq. unfold series_quantile.
  change (List.length [x] - 1)%nat with 0%nat.
  change (0 * qn)%nat with 0%nat.
  change (0 / 4)%nat with 0%nat. change (0 mod 4)%nat with 0%nat.
  change (Nat.min (0 + 1) 0) with 0%nat.
  change (sort_series [x]) with [x].
  change (nth 0 [x] (fofZ 0)) with x.
  unfold lerp, fgeb. simpl. unfold Rleb.
  destruct (Rle_dec (1 / 2) (0 / 4)); lra.
Qed.

Lemma iqr_flag_collapsed (x : R) : iqr_flag_of x x x = "Dark_High".
Proof.
  unfold iqr_flag_of, loc_assign, fgeb, fgtb. simpl. unfold Rleb, Rltb.
  decide_reals; reflexivity.
Qed.

(** Every group of one row, in exact arithmetic: the score is 0 and the
    z-flag Normal, the row lies on all four fences and is flagged
    Dark_High, and the two are reconciled to DARK_SPOT_MEDIUM. *)
Lemma lone_group_exact (metric : Row R -> R) (r : Row R) :
  score_group metric [r] =
  [ {| frow := {| irow := {| zrow := r; z_score := 0%R; z_flag := "Normal" |};
                 iqr_flag := "Dark_High" |};
       final_flag := "DARK_SPOT_MEDIUM";
       risk_severity := "Medium";
       anomaly_type := "Dark Spot" |} ].
Proof.
  unfold score_group, calculate_zscore_flags, calculate_iqr_flags, combine_flags.
  simpl map.
  change (zscore_flag 0%R) with (zscore_flag (fofZ 0 : R)).
  rewrite (zscore_flag_zero (L := RealOrder)).
  rewrite !series_quantile_single by lia. rewrite iqr_flag_collapsed.
  reflexivity.
Qed.

(** C1 fails on the engine: the run on a table with a single record does
    end without error and with the z-score 0.0, but the record is
    reconciled to DARK_SPOT_MEDIUM and is the one row of the report. *)
Theorem lone_record_is_flagged (parse_number : string -> option float)
  (format_2f : float -> string) :
  pipeline parse_number format_2f Samples.lone_frame =
  Ok {| report_columns :=
          ["state"; "district"; "time_period"; "enrolment_count"; "update_count";
           "total_activity"; "z_score"; "anomaly_type"; "risk_severity";
           "final_flag"; "recommendation"];
        report_rows :=
          [ {| r_state := Some "Goa";
               r_district := Some "North Goa";
               r_time_period := Some "2025-01";
               r_enrolment_count := 3%float;
               r_update_count := 2%float;
               r_total_activity := 5%float;
               r_z_score := 0%float;
               r_anomaly_type := "Dark Spot";
               r_risk_severity := "Medium";
               r_final_flag := "DARK_SPOT_MEDIUM";
               r_recommendation :=
                 "Activity " ++ format_2f 0%float
                 ++ " SD below state average – Check service availability" |} ] |}.
Proof. vm_compute. reflexivity. Qed.

(** ** The Group Partitioner *)

Section Grouping.

Variable A : Type.
Context {N : Num A}.
Variable key : Row A -> text.

Lemma insert_key_perm (k : string) (l : list string) :
  Permutation (insert_key k l) (k :: l).
Proof.
  induction l as [|y t IH]; simpl.
  - apply Permutation_refl.
  - destruct (String.leb k y).
    + apply Permutation_refl.
    + apply Permutation_trans with (y :: k :: t).
      * apply perm_skip. exact IH.
      * apply perm_swap.
Qed.

Lemma sort_keys_perm (l : list string) : Permutation (sort_keys l) l.
Proof.
  induction l as [|k l IH]; simpl.
  - apply perm_nil.
  - eapply Permutation_trans; [apply insert_key_perm|]. apply perm_skip. exact IH.
Qed.

Lemma in_present_keys (df : list (Row A)) (k : string) :
  In k (present_keys key df) <-> exists r, In r df /\ key r = Some k.
Proof.
  unfold present_keys. rewrite in_flat_map. split.
  - intros [r [Hr Hk]]. exists r. split; [exact Hr|].
    destruct (key r) as [s|]; [|destruct Hk].
    destruct Hk as [->|[]]. reflexivity.
  - intros [r [Hr Hk]]. exists r. split; [exact Hr|]. rewrite Hk. left. reflexivity.
Qed.

Lemma in_group_keys (df : list (Row A)) (k : string) :
  In k (group_keys key df) <-> exists r, In r df /\ key r = Some k.
Proof.
  unfold group_keys. rewrite <- in_present_keys. split; intros H.
  - apply (Permutation_in _ (sort_keys_perm _)) in H. apply nodup_In in H. exact H.
  - apply (Permutation_in _ (Permutation_sym (sort_keys_perm _))).
    apply nodup_In. exact H.
Qed.

Lemma group_keys_nodup (df : list (Row A)) : NoDup (group_keys key df).
Proof.
  unfold group_keys.
  apply (Permutation_NoDup (Permutation_sym (sort_keys_perm _))).
  apply NoDup_nodup.
Qed.

Lemma has_key_iff (k : string) (t : text) : has_key k t = true <-> t = Some k.
Proof.
  destruct t as [s|]; simpl.
  - rewrite String.eqb_eq. split; [intros ->; reflexivity|intros H; injection H; auto].
  - split; discriminate.
Qed.

Lemma filter_none (T : Type) (l : list T) : filter (fun _ => false) l = [].
Proof. induction l; simpl; auto. Qed.

(** Two tests that never hold together split a list into two parts. *)
Lemma filter_or_disjoint (T : Type) (p q : T -> bool) (l : list T) :
  (forall x, In x l -> p x && q x = false) ->
  Permutation (filter (fun x => p x || q x) l) (filter p l ++ filter q l).
Proof.
  induction l as [|x l IH]; intros H; simpl.
  - apply perm_nil.
  - assert (IH' := IH (fun y Hy => H y (or_intror Hy))).
    pose proof (H x (or_introl eq_refl)) as Hx.
    destruct (p x), (q x); simpl in *; try discriminate Hx.
    + apply perm_skip. exact IH'.
    + apply Permutation_cons_app. exact IH'.
    + exact IH'.
Qed.

(** The groups of distinct keys, one after the other, are the rows that
    have one of the keys. *)
Lemma concat_groups_perm (df : list (Row A)) (keys : list string) :
  NoDup keys ->
  Permutation
    (List.concat (map (fun k => filter (fun r => has_key k (key r)) df) keys))
    (filter (fun r => existsb (fun k => has_key k (key r)) keys) df).
Proof.
  induction keys as [|k ks IH]; intros Hnd; simpl.
  - rewrite filter_none. apply perm_nil.
  - inversion Hnd as [|? ? Hnotin Hnd']; subst.
    eapply Permutation_trans;
      [apply Permutation_app_head, (IH Hnd')|].
    apply Permutation_sym.
    apply (filter_or_disjoint (fun r => has_key k (key r))
             (fun r => existsb (fun k' => has_key k' (key r)) ks)).
    intros r _. destruct (has_key k (key r)) eqn:Hk; [|reflexivity]. simpl.
    destruct (existsb (fun k' => has_key k' (key r)) ks) eqn:He; [|reflexivity].
    apply existsb_exists in He. destruct He as [k' [Hin Hk']].
    apply has_key_iff in Hk. apply has_key_iff in Hk'.
    rewrite Hk in Hk'. injection Hk' as ->. contradiction.
Qed.

Lemma groupby_concat (df : list (Row A)) :
  Permutation (List.concat (map snd (groupby key df))) (filter (keyed key) df).
Proof.
  unfold groupby. rewrite map_map. simpl.
  eapply Permutation_trans; [apply concat_groups_perm, group_keys_nodup|].
  rewrite (filter_ext_in _ (keyed key)); [apply Permutation_refl|].
  intros r Hr. unfold keyed. destruct (key r) as [s|] eqn:Hs.
  - apply existsb_exists. exists s. split.
    + apply in_group_keys. exists r. auto.
    + simpl. apply String.eqb_refl.
  - destruct (existsb _ _) eqn:He; [|reflexivity].
    apply existsb_exists in He. destruct He as [k [_ Hk]]. discriminate Hk.
Qed.

Lemma in_groupby (df : list (Row A)) (k : string) (rows : list (Row A)) :
  In (k, rows) (groupby key df) <->
  In k (group_keys key df) /\ rows = filter (fun r => has_key k (key r)) df.
Proof.
  unfold groupby. rewrite in_map_iff. split.
  - intros [k' [E Hk']]. injection E as -> <-. auto.
  - intros [Hk ->]. exists k. auto.
Qed.

Lemma groupby_keys (df : list (Row A)) : map fst (groupby key df) = group_keys key df.
Proof. unfold groupby. rewrite map_map. simpl. apply map_id. Qed.

End Grouping.

Lemma score_group_base (A : Type) (N : Num A) (metric : Row A -> A) (g : list (Row A)) :
  map (@base_row A) (score_group metric g) = g.
Proof.
  transitivity (map (@zrow A) (map (@irow A) (map (@frow A) (score_group metric g)))).
  - rewrite !map_map. reflexivity.
  - unfold score_group. rewrite combine_flags_frame, iqr_frame, zscore_frame.
    reflexivity.
Qed.

Lemma detect_anomalies_base (A : Type) (N : Num A) (key : Row A -> text)
  (metric : Row A -> A) (df : list (Row A)) :
  match detect_anomalies_by key metric df with
  | Ok out => map (@base_row A) out = List.concat (map snd (groupby key df))
  | Raise _ => groupby key df = []
  end.
Proof.
  unfold detect_anomalies_by, pd_concat.
  destruct (groupby key df) as [|kg groups]; [reflexivity|].
  cbn [map]. rewrite concat_map. cbn [map List.concat].
  rewrite score_group_base, map_map. f_equal. f_equal.
  apply map_ext. intros g. apply score_group_base.
Qed.

(** C6, as amended: grouping by state partitions the cleaned rows that
    have a state.  The groups have distinct keys and are not empty; the
    rows of a group are rows of the table with the group's state, so two
    groups share no row; every row with a state is in the group of its
    state and a row without one is in none; the groups together are the
    rows with a state, each as often as in the table, and so are the rows
    of the result of the detection pass, which ends in an error only when
    no row has a state. *)
Theorem groupby_state_partitions (A : Type) (N : Num A) (df : list (Row A)) :
  let groups := groupby (@state A) df in
  NoDup (map fst groups) /\
  (forall k rows, In (k, rows) groups ->
     rows <> [] /\ forall r, In r rows -> In r df /\ state r = Some k) /\
  (forall k1 rows1 k2 rows2 r,
     In (k1, rows1) groups -> In (k2, rows2) groups ->
     In r rows1 -> In r rows2 -> (k1, rows1) = (k2, rows2)) /\
  (forall r k, In r df -> state r = Some k ->
     exists rows, In (k, rows) groups /\ In r rows) /\
  (forall r, state r = None -> forall k rows, In (k, rows) groups -> ~ In r rows) /\
  Permutation (List.concat (map snd groups)) (filter (keyed (@state A)) df) /\
  match detect_anomalies df with
  | Ok out => Permutation (map (@base_row A) out) (filter (keyed (@state A)) df)
  | Raise _ => filter (keyed (@state A)) df = []
  end.
Proof.
  intros groups. subst groups.
  assert (Hrows : forall k rows, In (k, rows) (groupby (@state A) df) ->
            forall r, In r rows <-> In r df /\ state r = Some k).
  { intros k rows H r. apply in_groupby in H. destruct H as [_ ->].
    rewrite filter_In, has_key_iff. reflexivity. }
  split; [rewrite groupby_keys; apply group_keys_nodup|].
  split.
  { intros k rows H. split.
    - pose proof H as H'. apply in_groupby in H'. destruct H' as [Hk _].
      apply in_group_keys in Hk. destruct Hk as [r [Hr Hs]].
      intros E. assert (Hin : In r rows) by (apply (Hrows k rows H); auto).
      rewrite E in Hin. destruct Hin.
    - intros r Hr. apply (Hrows k rows H). exact Hr. }
  split.
  { intros k1 rows1 k2 rows2 r H1 H2 Hr1 Hr2.
    apply (Hrows k1 rows1 H1) in Hr1. apply (Hrows k2 rows2 H2) in Hr2.
    destruct Hr1 as [_ E1]. destruct Hr2 as [_ E2]. rewrite E1 in E2.
    injection E2 as ->.
    apply in_groupby in H1. apply in_groupby in H2.
    destruct H1 as [_ ->]. destruct H2 as [_ ->]. reflexivity. }
  split.
  { intros r k Hr Hs. exists (filter (fun x => has_key k (state x)) df). split.
    - apply in_groupby. split; [|reflexivity]. apply in_group_keys. exists r. auto.
    - apply filter_In. split; [exact Hr|]. apply has_key_iff. exact Hs. }
  split.
  { intros r Hs k rows H Hr. apply (Hrows k rows H) in Hr.
    destruct Hr as [_ E]. rewrite Hs in E. discriminate E. }
  split; [apply groupby_concat|].
  unfold detect_anomalies.
  pose proof (detect_anomalies_base N (@state A) (@total_activity A) df) as H.
  pose proof (groupby_concat (@state A) df) as Hp.
  destruct (detect_anomalies_by (@state A) (@total_activity A) df) as [out|e].
  - rewrite H. exact Hp.
  - rewrite H in Hp. simpl in Hp. apply Permutation_nil in Hp. exact Hp.
Qed.

(** C6 as the specification states it fails on a table with a row that
    has no state: the row is in no group and is not in the result. *)
Lemma stateless_row_in_no_group :
  In Samples.stateless_row Samples.stateless_frame /\
  (forall k rows, In (k, rows) (groupby (@state float) Samples.stateless_frame) ->
     ~ In Samples.stateless_row rows) /\
  exists out, detect_anomalies Samples.stateless_frame = Ok out /\
    List.length out = 1%nat /\
    ~ In Samples.stateless_row (map (@base_row float) out) /\
    ~ Permutation (map (@base_row float) out) Samples.stateless_frame.
Proof.
  split; [right; left; reflexivity|]. split.
  - intros k rows H.
    assert (E : groupby (@state float) Samples.stateless_frame
                = [("Assam", [Samples.row "Assam" "Kamrup" 4%float 1%float])])
      by (vm_compute; reflexivity).
    rewrite E in H. destruct H as [H|[]]. injection H as <- <-.
    intros [H|[]]. discriminate H.
  - destruct (detect_anomalies Samples.stateless_frame) as [out|e] eqn:E;
      [|vm_compute in E; discriminate E].
    exists out. split; [reflexivity|].
    assert (Hb : map (@base_row float) out
                 = [Samples.row "Assam" "Kamrup" 4%float 1%float]).
    { assert (E' : match detect_anomalies Samples.stateless_frame with
                   | Ok o => map (@base_row float) o
                   | Raise _ => []
                   end = [Samples.row "Assam" "Kamrup" 4%float 1%float])
        by (vm_compute; reflexivity).
      rewrite E in E'. exact E'. }
    split; [|split].
    + rewrite <- (length_map (@base_row float)), Hb. reflexivity.
    + rewrite Hb. intros [H|[]]. discriminate H.
    + rewrite Hb. intros H. apply Permutation_length in H. discriminate H.
Qed.

(** ** The empty frame *)

(** C10: on an empty cleaned frame there is no group, so the list of
    per-group results is empty and [detect_anomalies] ends with the
    error of [pd.concat] instead of an empty frame. *)
Theorem detect_anomalies_empty (A : Type) (N : Num A) :
  groupby (@state A) [] = [] /\
  detect_anomalies (A := A) [] = Raise (ValueError "No objects to concatenate") /\
  forall out : list (FRow A), detect_anomalies (A := A) [] <> Ok out.
Proof.
  repeat split. intros out H. discriminate H.
Qed.

(** ** The Data Preparer *)

Lemma prefix_app (s t : string) : String.prefix s (s ++ t) = true.
Proof.
  induction s as [|a s IH]; simpl.
  - destruct t; reflexivity.
  - destruct (ascii_dec a a) as [_|Hn]; [exact IH|congruence].
Qed.

Lemma str_in_prefix (sub s : string) : String.prefix sub s = true -> str_in sub s = true.
Proof. intros H. destruct s; cbn [str_in]; rewrite H; reflexivity. Qed.

Lemma str_in_app_r (sub s t : string) : str_in sub t = true -> str_in sub (s ++ t) = true.
Proof.
  intros H. induction s as [|a s IH].
  - exact H.
  - change (String a s ++ t) with (String a (s ++ t)). cbn [str_in].
    rewrite IH. apply orb_true_r.
Qed.

Lemma prefix_app_mono (c s t : string) :
  String.prefix c s = true -> String.prefix c (s ++ t) = true.
Proof.
  revert c. induction s as [|a s IH]; intros c H.
  - destruct c; [destruct t; reflexivity|discriminate H].
  - destruct c as [|b c]; [reflexivity|]. simpl in *.
    destruct (ascii_dec b a); [apply IH; exact H|discriminate H].
Qed.

Lemma str_in_app_l (sub s t : string) : str_in sub s = true -> str_in sub (s ++ t) = true.
Proof.
  induction s as [|a s IH]; intros H.
  - cbn [str_in] in H. rewrite orb_false_r in H.
    apply str_in_prefix. apply (prefix_app_mono _ _ t H).
  - change (String a s ++ t) with (String a (s ++ t)). cbn [str_in] in *.
    apply orb_true_iff in H. destruct H as [H|H].
    + change (String a (s ++ t)) with (String a s ++ t).
      rewrite (prefix_app_mono _ _ t H). reflexivity.
    + rewrite (IH H). apply orb_true_r.
Qed.

(** A name occurs in its own quoted form, in a list that holds it, and in
    every text that ends with that list. *)
Lemma str_in_repr (c : string) : str_in c (repr_str c) = true.
Proof. unfold repr_str. apply str_in_app_r, str_in_prefix, prefix_app. Qed.

Lemma str_in_concat (sep c : string) (l : list string) :
  In c l -> str_in c (String.concat sep (map repr_str l)) = true.
Proof.
  induction l as [|x l IH]; intros H; [destruct H|].
  cbn [map String.concat]. destruct H as [->|H].
  - destruct (map repr_str l); [apply str_in_repr|apply str_in_app_l, str_in_repr].
  - destruct (map repr_str l) as [|y m] eqn:E.
    + destruct l; [destruct H|discriminate E].
    + apply str_in_app_r, str_in_app_r. apply (IH H).
Qed.

Lemma str_in_message (c : string) (missing : list string) :
  In c missing ->
  str_in c ("Missing required columns: " ++ repr_list missing) = true.
Proof.
  intros H. apply str_in_app_r. unfold repr_list.
  apply (str_in_app_r _ "["). apply str_in_app_l, str_in_concat. exact H.
Qed.

Section Preparation.

Variable A : Type.
Context {N : Num A}.
Variable parse_number : string -> option A.

Lemma has_column_iff (df : RawFrame A) (c : string) :
  has_column df c = true <-> In c (columns df).
Proof.
  unfold has_column. rewrite existsb_exists. split.
  - intros [x [Hx E]]. apply String.eqb_eq in E. subst. exact Hx.
  - intros H. exists c. split; [exact H|apply String.eqb_refl].
Qed.

Lemma in_missing_cols (df : RawFrame A) (c : string) :
  In c (missing_cols df) <-> In c required_cols /\ ~ In c (columns df).
Proof.
  unfold missing_cols. rewrite filter_In, negb_true_iff, <- has_column_iff.
  destruct (has_column df c); split; intros [H1 H2]; split; auto; congruence.
Qed.

Lemma prepare_data_cases (df : RawFrame A) :
  (missing_cols df = [] /\
   prepare_data parse_number df = Ok (dropna_rows parse_number (raw_rows df))) \/
  (missing_cols df <> [] /\
   prepare_data parse_number df =
   Raise (ValueError ("Missing required columns: " ++ repr_list (missing_cols df)))).
Proof.
  unfold prepare_data. destruct (missing_cols df) as [|c l].
  - left. auto.
  - right. split; [discriminate|reflexivity].
Qed.

Lemma dropna_rows_kept (rows : list (RawRow A)) :
  Forall2 (cleaned_from parse_number) (filter (counts_present parse_number) rows)
          (dropna_rows parse_number rows).
Proof.
  induction rows as [|r rows IH]; simpl; [constructor|].
  unfold counts_present, prepare_row.
  destruct (to_numeric parse_number (raw_enrolment_count r)) as [e|] eqn:He;
    [|exact IH].
  destruct (to_numeric parse_number (raw_update_count r)) as [u|] eqn:Hu;
    [|exact IH].
  constructor; [|exact IH]. unfold cleaned_from. simpl. auto 10.
Qed.

End Preparation.

(** C7: the Data Preparer fails, with an error whose message enumerates
    the missing names, if and only if a required column is absent from
    the table; the run then ends with that error, before any scoring.
    When all required columns are present it does not fail: it returns,
    in order, a cleaned row for every row whose two counts are numbers
    after coercion, and drops the other rows. *)
Theorem prepare_data_schema (A : Type) (N : Num A)
  (parse_number : string -> option A) (format_2f : A -> string) (df : RawFrame A) :
  (forall c, In c (missing_cols df) <-> In c required_cols /\ ~ In c (columns df)) /\
  ((exists c, In c required_cols /\ ~ In c (columns df)) <->
   (exists e, prepare_data parse_number df = Raise e)) /\
  (forall e, prepare_data parse_number df = Raise e ->
     e = ValueError ("Missing required columns: " ++ repr_list (missing_cols df)) /\
     (forall c, In c required_cols -> ~ In c (columns df) ->
        str_in c ("Missing required columns: " ++ repr_list (missing_cols df)) = true) /\
     pipeline parse_number format_2f df = Raise e) /\
  ((forall c, In c required_cols -> In c (columns df)) ->
   exists rows,
     prepare_data parse_number df = Ok rows /\
     Forall2 (cleaned_from parse_number)
             (filter (counts_present parse_number) (raw_rows df)) rows).
Proof.
  split; [intros c; apply in_missing_cols|]. split; [|split].
  - destruct (prepare_data_cases parse_number df) as [[Hm Hp]|[Hm Hp]]; rewrite Hp.
    + split.
      * intros [c Hc]. apply in_missing_cols in Hc. rewrite Hm in Hc. destruct Hc.
      * intros [e He]. discriminate He.
    + split; [intros _; eexists; reflexivity|]. intros _.
      destruct (missing_cols df) as [|c l] eqn:E; [congruence|].
      exists c. apply in_missing_cols. rewrite E. left. reflexivity.
  - intros e He.
    destruct (prepare_data_cases parse_number df) as [[Hm Hp]|[Hm Hp]];
      rewrite Hp in He; [discriminate He|]. injection He as <-.
    split; [reflexivity|]. split.
    + intros c Hr Ha. apply str_in_message. apply in_missing_cols. auto.
    + unfold pipeline. rewrite Hp. reflexivity.
  - intros Hall.
    destruct (prepare_data_cases parse_number df) as [[Hm Hp]|[Hm Hp]].
    + exists (dropna_rows parse_number (raw_rows df)). split; [exact Hp|].
      apply dropna_rows_kept.
    + exfalso. destruct (missing_cols df) as [|c l] eqn:E; [congruence|].
      assert (Hc : In c (missing_cols df)) by (rewrite E; left; reflexivity).
      apply in_missing_cols in Hc. destruct Hc as [Hr Ha]. apply Ha, Hall, Hr.
Qed.

(** Scenario D: without the district column the run ends with the error
    that names it. *)
Example missing_district (format_2f : float -> string) :
  pipeline Samples.no_parse format_2f Samples.no_district_frame =
  Raise (ValueError "Missing required columns: ['district']").
Proof. vm_compute. reflexivity. Qed.

(** Scenario C: the row whose enrolment count is the text abc is dropped,
    the other row is kept. *)
Example abc_row_dropped :
  prepare_data Samples.no_parse Samples.abc_frame =
  Ok [Samples.row "Goa" "South Goa" 6%float 1%float].
Proof. vm_compute. reflexivity. Qed.

(** ** The Report Generator *)

(** *** The order of the sort keys *)

Lemma string_compare_refl (s : string) : String.compare s s = Eq.
Proof.
  induction s as [|a s IH]; simpl; [reflexivity|].
  unfold Ascii.compare. rewrite N.compare_refl. exact IH.
Qed.

Lemma string_compare_lt_trans (a b c : string) :
  String.compare a b = Lt -> String.compare b c = Lt -> String.compare a c = Lt.
Proof.
  revert b c. induction a as [|x a IH]; intros [|y b] [|z c]; simpl;
    try reflexivity; try discriminate.
  unfold Ascii.compare.
  destruct (N.compare_spec (N_of_ascii x) (N_of_ascii y)) as [Exy|Lxy|Gxy];
    destruct (N.compare_spec (N_of_ascii y) (N_of_ascii z)) as [Eyz|Lyz|Gyz];
    try discriminate; intros H1 H2.
  - rewrite Exy, Eyz, N.compare_refl. exact (IH b c H1 H2).
  - rewrite Exy. apply N.compare_lt_iff in Lyz. rewrite Lyz. reflexivity.
  - rewrite <- Eyz. apply N.compare_lt_iff in Lxy. rewrite Lxy. reflexivity.
  - assert (H : (N_of_ascii x < N_of_ascii z)%N) by lia.
    apply N.compare_lt_iff in H. rewrite H. reflexivity.
Qed.

Lemma text_compare_refl (t : text) : text_compare t t = Eq.
Proof. destruct t; simpl; [apply string_compare_refl|reflexivity]. Qed.

Lemma text_compare_eq (a b : text) : text_compare a b = Eq -> a = b.
Proof.
  destruct a, b; simpl; try discriminate; [|reflexivity].
  intros H. apply String.compare_eq_iff in H. congruence.
Qed.

Lemma text_compare_antisym (a b : text) :
  text_compare a b = CompOpp (text_compare b a).
Proof. destruct a, b; simpl; try reflexivity. apply String.compare_antisym. Qed.

Lemma text_compare_lt_trans (a b c : text) :
  text_compare a b = Lt -> text_compare b c = Lt -> text_compare a c = Lt.
Proof.
  destruct a, b, c; simpl; try reflexivity; try discriminate.
  apply string_compare_lt_trans.
Qed.

Section ReportOrder.

Variable A : Type.

Lemma key_compare_antisym (a b : ReportRow A) :
  key_compare a b = CompOpp (key_compare b a).
Proof.
  unfold key_compare.
  rewrite (String.compare_antisym (r_risk_severity a)).
  destruct (String.compare (r_risk_severity b) (r_risk_severity a)); simpl;
    try reflexivity.
  rewrite (text_compare_antisym (r_state a)).
  destruct (text_compare (r_state b) (r_state a)); simpl; try reflexivity.
  apply text_compare_antisym.
Qed.

Lemma key_le_total (a b : ReportRow A) : key_leb a b = false -> key_le b a.
Proof.
  unfold key_le, key_leb. rewrite (key_compare_antisym b a).
  destruct (key_compare a b); simpl; congruence.
Qed.

Lemma key_le_trans (a b c : ReportRow A) : key_le a b -> key_le b c -> key_le a c.
Proof.
  unfold key_le, key_leb, key_compare.
  destruct (String.compare (r_risk_severity a) (r_risk_severity b)) eqn:S1;
    try discriminate;
    destruct (String.compare (r_risk_severity b) (r_risk_severity c)) eqn:S2;
    try discriminate;
    try (apply String.compare_eq_iff in S1; rewrite S1);
    try (apply String.compare_eq_iff in S2; rewrite <- S2);
    try rewrite S1; try rewrite S2;
    try (rewrite (string_compare_lt_trans _ _ _ S1 S2)); try reflexivity.
  rewrite string_compare_refl.
  destruct (text_compare (r_state a) (r_state b)) eqn:T1; try discriminate;
    destruct (text_compare (r_state b) (r_state c)) eqn:T2; try discriminate;
    try (apply text_compare_eq in T1; rewrite T1);
    try (apply text_compare_eq in T2; rewrite <- T2);
    try rewrite T1; try rewrite T2;
    try (rewrite (text_compare_lt_trans _ _ _ T1 T2)); try reflexivity.
  rewrite text_compare_refl.
  destruct (text_compare (r_district a) (r_district b)) eqn:D1; try discriminate;
    destruct (text_compare (r_district b) (r_district c)) eqn:D2; try discriminate;
    try (apply text_compare_eq in D1; rewrite D1);
    try (apply text_compare_eq in D2; rewrite <- D2);
    try rewrite D1; try rewrite D2;
    try (rewrite (text_compare_lt_trans _ _ _ D1 D2)); try reflexivity.
  rewrite text_compare_refl. reflexivity.
Qed.

Lemma insert_row_perm (x : ReportRow A) (l : list (ReportRow A)) :
  Permutation (insert_row x l) (x :: l).
Proof.
  induction l as [|y t IH]; simpl.
  - apply Permutation_refl.
  - destruct (key_leb x y).
    + apply Permutation_refl.
    + apply Permutation_trans with (y :: x :: t).
      * apply perm_skip. exact IH.
      * apply perm_swap.
Qed.

Lemma sort_values_perm (l : list (ReportRow A)) : Permutation (sort_values l) l.
Proof.
  induction l as [|x l IH]; simpl.
  - apply perm_nil.
  - eapply Permutation_trans; [apply insert_row_perm|]. apply perm_skip. exact IH.
Qed.

Lemma insert_row_hd (x y : ReportRow A) (l : list (ReportRow A)) :
  key_le y x -> HdRel (@key_le A) y l -> HdRel (@key_le A) y (insert_row x l).
Proof.
  intros Hyx Hl. destruct l as [|z t]; simpl.
  - constructor. exact Hyx.
  - destruct (key_leb x z); constructor; [exact Hyx|].
    inversion Hl; subst. assumption.
Qed.

Lemma insert_row_sorted (x : ReportRow A) (l : list (ReportRow A)) :
  Sorted (@key_le A) l -> Sorted (@key_le A) (insert_row x l).
Proof.
  induction l as [|y t IH]; intros Hs; simpl.
  - repeat constructor.
  - destruct (key_leb x y) eqn:E.
    + constructor; [exact Hs|]. constructor. exact E.
    + inversion Hs as [|? ? Ht Hhd]; subst.
      constructor; [apply IH; exact Ht|].
      apply insert_row_hd; [apply key_le_total; exact E|exact Hhd].
Qed.

Lemma sort_values_sorted (l : list (ReportRow A)) : Sorted (@key_le A) (sort_values l).
Proof.
  induction l as [|x l IH]; simpl.
  - constructor.
  - apply insert_row_sorted. exact IH.
Qed.

Lemma sort_values_strongly_sorted (l : list (ReportRow A)) :
  StronglySorted (@key_le A) (sort_values l).
Proof.
  apply Sorted_StronglySorted.
  - intros a b c. apply key_le_trans.
  - apply sort_values_sorted.
Qed.

End ReportOrder.

Lemma strongly_sorted_weaken (T : Type) (P Q : T -> T -> Prop) (l : list T) :
  (forall a b, P a b -> Q a b) -> StronglySorted P l -> StronglySorted Q l.
Proof.
  intros HPQ Hs. induction Hs as [|a l Hs IH Hall]; constructor.
  - exact IH.
  - apply (Forall_impl _ (HPQ a)). exact Hall.
Qed.

Lemma key_le_tuple (A : Type) (a b : ReportRow A) : key_le a b <-> tuple_le a b.
Proof.
  unfold key_le, key_leb, key_compare, tuple_le.
  destruct (String.compare (r_risk_severity a) (r_risk_severity b));
    destruct (text_compare (r_state a) (r_state b));
    destruct (text_compare (r_district a) (r_district b)); simpl;
    split; intros H; try reflexivity; try discriminate H;
    try (right; split; [reflexivity|]); try (left; reflexivity);
    try (right; split; [reflexivity|discriminate]);
    try (destruct H as [H|[_ [H|[H1 H2]]]]; congruence);
    try (destruct H as [H|[H _]]; discriminate H).
Qed.



(** ** Sample runs *)

(** The run on the sample of two states: the outlier of the first state
    and the lone record of the second are reported, the High row first. *)
Example two_state_report (parse_number : string -> option float)
  (format_2f : float -> string) :
  match pipeline parse_number format_2f Samples.two_state_frame with
  | Ok report =>
      map (fun r => (r_risk_severity r, r_state r, r_district r,
                     r_total_activity r, r_final_flag r))
          (report_rows report)
  | Raise _ => []
  end
  = [("High", Some "Assam", Some "d", 100%float, "HOT_SPOT_HIGH");
     ("Medium", Some "Goa", Some "North Goa", 5%float, "DARK_SPOT_MEDIUM")].
Proof. vm_compute. reflexivity. Qed.

(** The groups of the table with a row without state. *)
Example stateless_groups :
  groupby (@state float) Samples.stateless_frame
  = [("Assam", [Samples.row "Assam" "Kamrup" 4%float 1%float])].
Proof. vm_compute. reflexivity. Qed.

(** The quartiles of the sample group, by linear interpolation at the
    positions 2.25 and 6.75 of the sorted values. *)
Example spread_quartiles :
  series_quantile 1 4 (map (@total_activity float) Samples.spread_group) = 3.25%float /\
  series_quantile 3 4 (map (@total_activity float) Samples.spread_group) = 7.75%float.
Proof. split; vm_compute; reflexivity. Qed.

(** * More of the engine *)

(** ** What the scorers and the reconciliation can write *)

(** The five triples (final_flag, risk_severity, anomaly_type) of a
    reconciled row. *)
Definition verdict_triples : list (string * string * string) :=
  [("HOT_SPOT_HIGH", "High", "Hot Spot");
   ("DARK_SPOT_HIGH", "High", "Dark Spot");
   ("HOT_SPOT_MEDIUM", "Medium", "Hot Spot");
   ("DARK_SPOT_MEDIUM", "Medium", "Dark Spot");
   ("NORMAL", "Normal", "Normal")].

Definition flag_values : list string :=
  ["Normal"; "Hot_High"; "Hot_Medium"; "Dark_High"; "Dark_Medium"].

Lemma decide_cases (z i : string) :
  In (decide z i, severity_of (decide z i), type_of (decide z i)) verdict_triples.
Proof.
  unfold decide.
  destruct (in_pair "Hot_High" z i && str_in "Hot" z && str_in "Hot" i);
    [left; reflexivity|].
  destruct (in_pair "Dark_High" z i && str_in "Dark" z && str_in "Dark" i);
    [right; left; reflexivity|].
  destruct (str_in "Hot" z || str_in "Hot" i); [do 2 right; left; reflexivity|].
  destruct (str_in "Dark" z || str_in "Dark" i); [do 3 right; left; reflexivity|].
  do 4 right. left. reflexivity.
Qed.

Lemma in_combine_flags_triple (A : Type) (df : list (IRow A)) (out : FRow A) :
  In out (combine_flags df) ->
  In (final_flag out, risk_severity out, anomaly_type out) verdict_triples.
Proof.
  intros Hin. rewrite (in_combine_flags df out Hin). simpl. apply decide_cases.
Qed.

(** X1: whatever texts the two flag columns hold, every row of the reconciled
    frame carries one of the five verdicts with the severity and the type
    that belong to it: the three columns never disagree. *)
Theorem combine_flags_triples (A : Type) (df : list (IRow A)) :
  Forall (fun out : FRow A =>
            In (final_flag out, risk_severity out, anomaly_type out) verdict_triples)
         (combine_flags df).
Proof.
  apply Forall_forall. intros out Hin. apply (in_combine_flags_triple df out Hin).
Qed.

(** X2: the reconciliation does not look at which scorer gave which flag:
    exchanging the two flags gives the same verdict, for any two texts. *)
Theorem decide_symmetric (z i : string) : decide z i = decide i z.
Proof.
  unfold decide, in_pair.
  generalize (String.eqb "Hot_High" z) (String.eqb "Hot_High" i)
             (String.eqb "Dark_High" z) (String.eqb "Dark_High" i)
             (str_in "Hot" z) (str_in "Hot" i) (str_in "Dark" z) (str_in "Dark" i).
  intros [] [] [] [] [] [] [] []; reflexivity.
Qed.

Lemma zscore_flag_values (A : Type) (N : Num A) (z : A) :
  exists f : flag, zscore_flag z = flag_str f.
Proof.
  unfold zscore_flag, loc_assign.
  destruct (fleb z (fofZ (-2)) && fgtb z (fofZ (-3))); [exists Dark_Medium; reflexivity|].
  destruct (fleb z (fofZ (-3))); [exists Dark_High; reflexivity|].
  destruct (fgeb z (fofZ 2) && fltb z (fofZ 3)); [exists Hot_Medium; reflexivity|].
  destruct (fgeb z (fofZ 3)); [exists Hot_High|exists Normal]; reflexivity.
Qed.

Lemma iqr_flag_values (A : Type) (N : Num A) (q1 q3 v : A) :
  exists f : flag, iqr_flag_of q1 q3 v = flag_str f.
Proof.
  rewrite iqr_flag_last_write.
  repeat match goal with
         | |- context [if ?c then _ else _] => destruct c
         end;
    [exists Dark_Medium|exists Dark_High|exists Hot_Medium|exists Hot_High|exists Normal];
    reflexivity.
Qed.

Lemma in_score_group (A : Type) (N : Num A) (metric : Row A -> A) (g : list (Row A))
  (out : FRow A) :
  In out (score_group metric g) ->
  out = combine_row (frow out) /\
  (exists z : flag, z_flag (irow (frow out)) = flag_str z) /\
  (exists i : flag, iqr_flag (frow out) = flag_str i).
Proof.
  unfold score_group. intros H. split; [apply (in_combine_flags _ _ H)|].
  assert (Hi : In (frow out)
                  (calculate_iqr_flags metric (calculate_zscore_flags metric g))).
  { rewrite <- (combine_flags_frame
                  (calculate_iqr_flags metric (calculate_zscore_flags metric g))).
    apply in_map. exact H. }
  destruct (in_iqr _ _ _ _ Hi) as [Hz Hflag]. split.
  - destruct (in_zscore _ _ _ _ Hz) as [_ [_ Hf]]. rewrite Hf. apply zscore_flag_values.
  - rewrite Hflag. apply iqr_flag_values.
Qed.

Lemma reconcile_normal (z i : flag) :
  reconcile_spec z i = NORMAL <-> z = Normal /\ i = Normal.
Proof.
  destruct z, i; simpl; split; intros H; try discriminate H; auto;
    destruct H as [H1 H2]; discriminate.
Qed.

Lemma flag_str_inj (a b : flag) : flag_str a = flag_str b -> a = b.
Proof. destruct a, b; simpl; intros H; try reflexivity; discriminate H. Qed.

Lemma verdict_str_inj (a b : verdict) : verdict_str a = verdict_str b -> a = b.
Proof. destruct a, b; simpl; intros H; try reflexivity; discriminate H. Qed.

(** The scored rows of a group: the two flags and the verdict. *)
Lemma score_group_flags (A : Type) (N : Num A) (metric : Row A -> A)
  (group : list (Row A)) :
  Forall (fun out : FRow A =>
            exists z i : flag,
              z_flag (irow (frow out)) = flag_str z /\
              iqr_flag (frow out) = flag_str i /\
              final_flag out = verdict_str (reconcile_spec z i) /\
              (final_flag out = "NORMAL" <->
               z_flag (irow (frow out)) = "Normal" /\ iqr_flag (frow out) = "Normal"))
         (score_group metric group).
Proof.
  apply Forall_forall. intros out Hin.
  destruct (in_score_group _ _ _ _ Hin) as [Hc [[z Hz] [i Hi]]].
  exists z, i. split; [exact Hz|]. split; [exact Hi|].
  assert (Hf : final_flag out = verdict_str (reconcile_spec z i)).
  { rewrite Hc. simpl. rewrite Hz, Hi. apply decide_reconcile. }
  split; [exact Hf|]. rewrite Hf, Hz, Hi.
  change "NORMAL" with (verdict_str NORMAL). change "Normal" with (flag_str Normal).
  split.
  - intros H. apply verdict_str_inj, reconcile_normal in H. destruct H as [-> ->]. auto.
  - intros [H1 H2]. apply flag_str_inj in H1. apply flag_str_inj in H2. subst.
    reflexivity.
Qed.

(** A row whose two flags disagree on the direction. *)
Definition conflict_row : IRow float :=
  {| irow := {| zrow := Samples.row "Assam" "d" 1%float 0%float;
                z_score := 2%float; z_flag := "Hot_Medium" |};
     iqr_flag := "Dark_High" |}.

(** X3: the directions of the two flags and of the verdict, on the five flag
    values: where one flag is Hot and the other Dark, whatever their
    strengths, the Hot one wins and the verdict is HOT_SPOT_MEDIUM; a HIGH
    verdict is given only when both flags have the direction of the
    verdict; a Dark verdict is never given while a flag is Hot. *)
Theorem combine_flags_directions (A : Type) (df : list (IRow A)) (out : FRow A)
  (z i : flag) :
  In out (combine_flags df) ->
  z_flag (irow (frow out)) = flag_str z ->
  iqr_flag (frow out) = flag_str i ->
  ((category_of z = Hot /\ category_of i = Dark) \/
   (category_of z = Dark /\ category_of i = Hot) ->
   final_flag out = "HOT_SPOT_MEDIUM") /\
  (final_flag out = "HOT_SPOT_HIGH" -> category_of z = Hot /\ category_of i = Hot) /\
  (final_flag out = "DARK_SPOT_HIGH" -> category_of z = Dark /\ category_of i = Dark) /\
  (final_flag out = "DARK_SPOT_HIGH" \/ final_flag out = "DARK_SPOT_MEDIUM" ->
   category_of z <> Hot /\ category_of i <> Hot).
Proof.
  intros Hin Hz Hi. rewrite (in_combine_flags df out Hin).
  cbn [final_flag frow combine_row]. rewrite Hz, Hi. clear.
  destruct z, i; simpl; (split; [|split; [|split]]); intros H;
    repeat match goal with
           | H : _ \/ _ |- _ => destruct H
           | H : _ /\ _ |- _ => destruct H
           end;
    try discriminate; try reflexivity; split; try reflexivity; discriminate.
Qed.

Lemma combine_flags_directions_witness :
  Forall (fun out : FRow float => final_flag out = "HOT_SPOT_MEDIUM")
         (combine_flags [conflict_row]).
Proof.
  apply Forall_forall. intros out Hin.
  apply (combine_flags_directions [conflict_row] out Hot_Medium Dark_High Hin).
  - destruct Hin as [<-|[]]. reflexivity.
  - destruct Hin as [<-|[]]. reflexivity.
  - left. split; reflexivity.
Defined.

(** ** The detection pass as a whole *)

Section Detection.

Variable A : Type.
Context {N : Num A}.

(** Every row of the result was scored within the group of its state. *)
Lemma detect_anomalies_rows (df : list (Row A)) (out : list (FRow A)) (o : FRow A) :
  detect_anomalies df = Ok out -> In o out ->
  exists k rows, In (k, rows) (groupby (@state A) df) /\
                 In o (score_group (@total_activity A) rows).
Proof.
  unfold detect_anomalies, detect_anomalies_by, pd_concat. intros H Ho.
  destruct (map (fun kg => score_group (@total_activity A) (snd kg))
                (groupby (@state A) df)) as [|g gs] eqn:E; [discriminate H|].
  injection H as <-. change (g ++ List.concat gs)%list with (List.concat (g :: gs)) in Ho.
  rewrite <- E in Ho. apply in_concat in Ho.
  destruct Ho as [l [Hl Ho]]. apply in_map_iff in Hl. destruct Hl as [[k rows] [<- Hkg]].
  exists k, rows. auto.
Qed.

Lemma keyed_none (df : list (Row A)) :
  filter (keyed (@state A)) df = [] <-> forall r, In r df -> state r = None.
Proof.
  split.
  - intros H r Hr. destruct (state r) as [s|] eqn:Hs; [|reflexivity].
    assert (Hin : In r (filter (keyed (@state A)) df)).
    { apply filter_In. split; [exact Hr|]. unfold keyed. rewrite Hs. reflexivity. }
    rewrite H in Hin. destruct Hin.
  - intros H. induction df as [|r df IH]; [reflexivity|]. simpl.
    unfold keyed at 1. rewrite (H r (or_introl eq_refl)).
    apply IH. intros x Hx. apply H. right. exact Hx.
Qed.

(** The rows of the result, or why there is none. *)
Lemma detect_anomalies_keyed (df : list (Row A)) :
  match detect_anomalies df with
  | Ok out => Permutation (map (@base_row A) out) (filter (keyed (@state A)) df) /\
              out <> []
  | Raise e => filter (keyed (@state A)) df = [] /\
               e = ValueError "No objects to concatenate"
  end.
Proof.
  pose proof (detect_anomalies_base N (@state A) (@total_activity A) df) as H.
  pose proof (groupby_concat (@state A) df) as Hp.
  unfold detect_anomalies.
  destruct (detect_anomalies_by (@state A) (@total_activity A) df) as [out|e] eqn:E.
  - split; [rewrite H; exact Hp|]. intros ->. simpl in H.
    unfold detect_anomalies_by, pd_concat in E.
    destruct (groupby (@state A) df) as [|[k rows] gs] eqn:G; [discriminate E|].
    assert (Hk : In (k, rows) (groupby (@state A) df)) by (rewrite G; left; reflexivity).
    apply in_groupby in Hk. destruct Hk as [Hk Hrows].
    apply in_group_keys in Hk. destruct Hk as [r [Hr Hs]].
    assert (Hin : In r rows).
    { rewrite Hrows. apply filter_In. split; [exact Hr|]. apply has_key_iff, Hs. }
    cbn [map List.concat snd] in H. symmetry in H. apply app_eq_nil in H.
    destruct H as [H _]. rewrite H in Hin. destruct Hin.
  - rewrite H in Hp. simpl in Hp. apply Permutation_nil in Hp. split; [exact Hp|].
    unfold detect_anomalies_by, pd_concat in E.
    destruct (map _ _); [injection E as <-; reflexivity|discriminate E].
Qed.

End Detection.

(** X4: the detection pass ends in the error of the concatenation exactly
    when no row of the cleaned frame has a state (an empty frame, or one
    whose rows all lack it); otherwise it returns one scored row for every
    row that has a state. *)
Theorem detect_anomalies_raises_iff (A : Type) (N : Num A) (df : list (Row A)) :
  ((forall r, In r df -> state r = None) <->
   detect_anomalies df = Raise (ValueError "No objects to concatenate")) /\
  ((exists r, In r df /\ state r <> None) <->
   exists out, detect_anomalies df = Ok out /\
               List.length out = List.length (filter (keyed (@state A)) df)).
Proof.
  pose proof (detect_anomalies_keyed df) as H.
  destruct (detect_anomalies df) as [out|e] eqn:E.
  - destruct H as [H Hne].
    assert (Hlen : List.length out = List.length (filter (keyed (@state A)) df)).
    { rewrite <- (Permutation_length H). symmetry. apply length_map. }
    split; split.
    + intros Hall. apply (proj2 (keyed_none df)) in Hall. rewrite Hall in Hlen.
      destruct out; [congruence|discriminate Hlen].
    + discriminate.
    + intros _. exists out. auto.
    + intros _. destruct (filter (keyed (@state A)) df) as [|r l] eqn:F.
      * destruct out; [congruence|discriminate Hlen].
      * assert (Hin : In r (filter (keyed (@state A)) df)) by (rewrite F; left; auto).
        apply filter_In in Hin. destruct Hin as [Hr Hk]. exists r. split; [exact Hr|].
        unfold keyed in Hk. destruct (state r); [discriminate|discriminate Hk].
  - destruct H as [H0 ->]. pose proof (proj1 (keyed_none df) H0) as H. split; split.
    + reflexivity.
    + intros _. exact H.
    + intros [r [Hr Hs]]. exfalso. apply Hs, H, Hr.
    + intros [out [Ho _]]. discriminate Ho.
Qed.

Lemma detect_anomalies_forall (A : Type) (N : Num A) (P : FRow A -> Prop) :
  (forall group, Forall P (score_group (@total_activity A) group)) ->
  forall df out, detect_anomalies df = Ok out -> Forall P out.
Proof.
  intros HP df out H. apply Forall_forall. intros o Ho.
  destruct (detect_anomalies_rows df o H Ho) as [k [rows [_ Hin]]].
  apply (proj1 (Forall_forall _ _) (HP rows) o Hin).
Qed.

(** X5: In the result of the detection pass, for any number type: each
    scorer has written one of the five flag values, the verdict is the one
    of the five rules on these two flags, and a row is NORMAL exactly when
    both scorers say Normal. *)
Theorem detect_anomalies_flags (A : Type) (N : Num A) (df : list (Row A))
  (out : list (FRow A)) :
  detect_anomalies df = Ok out ->
  Forall (fun o : FRow A =>
            exists z i : flag,
              z_flag (irow (frow o)) = flag_str z /\
              iqr_flag (frow o) = flag_str i /\
              final_flag o = verdict_str (reconcile_spec z i) /\
              (final_flag o = "NORMAL" <->
               z_flag (irow (frow o)) = "Normal" /\ iqr_flag (frow o) = "Normal"))
         out.
Proof.
  apply detect_anomalies_forall. intros group. apply score_group_flags.
Qed.

Lemma detect_anomalies_flags_witness :
  match detect_anomalies Samples.spread_group with
  | Ok out =>
      Forall (fun o : FRow float =>
                exists z i : flag,
                  z_flag (irow (frow o)) = flag_str z /\
                  iqr_flag (frow o) = flag_str i /\
                  final_flag o = verdict_str (reconcile_spec z i) /\
                  (final_flag o = "NORMAL" <->
                   z_flag (irow (frow o)) = "Normal" /\ iqr_flag (frow o) = "Normal"))
             out
  | Raise _ => False
  end.
Proof.
  destruct (detect_anomalies Samples.spread_group) as [out|e] eqn:E.
  - apply (detect_anomalies_flags FloatNum Samples.spread_group E).
  - vm_compute in E. discriminate E.
Defined.

(** ** Groups are scored independently, and come out in key order *)

(** The rows of one state, among cleaned rows and among scored rows. *)
Definition in_state (A : Type) (k : string) (r : Row A) : bool := has_key k (state r).

Definition scored_in_state (A : Type) (k : string) (o : FRow A) : bool :=
  has_key k (state (base_row o)).

(** Ascending order of the state column, missing values last. *)
Definition state_le (A : Type) (a b : Row A) : Prop :=
  text_compare (state a) (state b) <> Gt.

Section Independence.

Variable A : Type.
Context {N : Num A}.

Lemma filter_concat (T : Type) (p : T -> bool) (L : list (list T)) :
  filter p (List.concat L) = List.concat (map (filter p) L).
Proof.
  induction L as [|l L IH]; [reflexivity|].
  cbn [List.concat map]. rewrite filter_app, IH. reflexivity.
Qed.

Lemma filter_all (T : Type) (p : T -> bool) (l : list T) :
  (forall x, In x l -> p x = true) -> filter p l = l.
Proof.
  induction l as [|x l IH]; intros H; [reflexivity|]. simpl.
  rewrite (H x (or_introl eq_refl)). f_equal. apply IH. intros y Hy. apply H. right. exact Hy.
Qed.

Lemma filter_nothing (T : Type) (p : T -> bool) (l : list T) :
  (forall x, In x l -> p x = false) -> filter p l = [].
Proof.
  induction l as [|x l IH]; intros H; [reflexivity|]. simpl.
  rewrite (H x (or_introl eq_refl)). apply IH. intros y Hy. apply H. right. exact Hy.
Qed.

(** Of the lists of distinct keys, one after the other, only the one of
    the key [k] is left when the others are empty. *)
Lemma concat_pick (T : Type) (f : string -> list T) (k : string) (keys : list string) :
  NoDup keys -> In k keys ->
  List.concat (map (fun k' => if String.eqb k' k then f k' else []) keys) = f k.
Proof.
  induction keys as [|x keys IH]; intros Hnd Hin; [destruct Hin|].
  inversion Hnd as [|? ? Hx Hnd']; subst. cbn [map List.concat].
  destruct (String.eqb_spec x k) as [->|Hne].
  - rewrite (proj2 (concat_nil_Forall _)); [apply app_nil_r|].
    apply Forall_forall. intros l Hl. apply in_map_iff in Hl.
    destruct Hl as [k' [<- Hk']]. destruct (String.eqb_spec k' k) as [->|_];
      [contradiction|reflexivity].
  - destruct Hin as [->|Hin]; [congruence|]. apply (IH Hnd' Hin).
Qed.

Lemma concat_pick_none (T : Type) (f : string -> list T) (k : string)
  (keys : list string) :
  ~ In k keys ->
  List.concat (map (fun k' => if String.eqb k' k then f k' else []) keys) = [].
Proof.
  intros Hk. apply concat_nil_Forall, Forall_forall. intros l Hl.
  apply in_map_iff in Hl. destruct Hl as [k' [<- Hk']].
  destruct (String.eqb_spec k' k) as [->|_]; [contradiction|reflexivity].
Qed.

Lemma score_group_in (metric : Row A -> A) (g : list (Row A)) (o : FRow A) :
  In o (score_group metric g) -> In (base_row o) g.
Proof.
  intros H. rewrite <- (score_group_base N metric g). apply in_map. exact H.
Qed.

Lemma detect_anomalies_concat (df : list (Row A)) (out : list (FRow A)) :
  detect_anomalies df = Ok out ->
  out = List.concat
          (map (fun k => score_group (@total_activity A)
                           (filter (in_state k) df))
               (group_keys (@state A) df)).
Proof.
  unfold detect_anomalies, detect_anomalies_by, pd_concat, groupby.
  rewrite map_map. cbn [snd].
  destruct (map _ (group_keys (@state A) df)) eqn:E; intros H; [discriminate H|].
  injection H as <-. reflexivity.
Qed.

Lemma detect_anomalies_state (df : list (Row A)) (out : list (FRow A)) (k : string) :
  detect_anomalies df = Ok out ->
  filter (scored_in_state k) out
  = score_group (@total_activity A) (filter (in_state k) df).
Proof.
  intros H. rewrite (detect_anomalies_concat df H), filter_concat, map_map.
  rewrite (map_ext _ (fun k' => if String.eqb k' k
                                then score_group (@total_activity A)
                                       (filter (in_state k') df)
                                else [])).
  - destruct (in_dec string_dec k (group_keys (@state A) df)) as [Hin|Hout].
    + apply (concat_pick
               (fun k' => score_group (@total_activity A) (filter (in_state k') df))
               k (group_keys_nodup (@state A) df) Hin).
    + rewrite (concat_pick_none
                 (fun k' => score_group (@total_activity A) (filter (in_state k') df))
                 k _ Hout).
      rewrite (filter_nothing (in_state k) df); [reflexivity|].
      intros r Hr. unfold in_state. destruct (has_key k (state r)) eqn:Hk; [|reflexivity].
      exfalso. apply Hout. apply in_group_keys. exists r. split; [exact Hr|].
      apply has_key_iff, Hk.
  - intros k'. destruct (String.eqb_spec k' k) as [->|Hne].
    + apply filter_all. intros o Ho. apply score_group_in, filter_In in Ho.
      apply (proj2 Ho).
    + apply filter_nothing. intros o Ho. apply score_group_in, filter_In in Ho.
      destruct Ho as [_ Ho]. unfold in_state in Ho. apply has_key_iff in Ho.
      unfold scored_in_state. rewrite Ho. simpl. apply String.eqb_neq. exact Hne.
Qed.

End Independence.

(** X6: a record's result depends on the records of its own state only: the
    rows of the result that belong to state [k] are the group of [k]
    scored on its own, so two frames with the same rows for a state give
    the same results for it, whatever their other rows. *)
Theorem detect_anomalies_per_state (A : Type) (N : Num A) (df df' : list (Row A))
  (out out' : list (FRow A)) (k : string) :
  detect_anomalies df = Ok out ->
  detect_anomalies df' = Ok out' ->
  filter (in_state k) df = filter (in_state k) df' ->
  filter (scored_in_state k) out
  = score_group (@total_activity A) (filter (in_state k) df) /\
  filter (scored_in_state k) out = filter (scored_in_state k) out'.
Proof.
  intros H H' E.
  rewrite (detect_anomalies_state df k H), (detect_anomalies_state df' k H'), E.
  split; reflexivity.
Qed.

(** Two cleaned frames that agree on one state. *)
Definition mixed_frame : list (Row float) := Samples.lone_group ++ Samples.spread_group.

Lemma detect_anomalies_per_state_witness :
  match detect_anomalies mixed_frame, detect_anomalies Samples.spread_group with
  | Ok out, Ok out' =>
      filter (scored_in_state "Assam") out = filter (scored_in_state "Assam") out'
  | _, _ => False
  end.
Proof.
  destruct (detect_anomalies mixed_frame) as [out|e] eqn:E;
    [|vm_compute in E; discriminate E].
  destruct (detect_anomalies Samples.spread_group) as [out'|e] eqn:E';
    [|vm_compute in E'; discriminate E'].
  apply (detect_anomalies_per_state FloatNum mixed_frame Samples.spread_group "Assam" E E').
  vm_compute. reflexivity.
Defined.

Section ResultOrder.

Variable A : Type.
Context {N : Num A}.

Lemma string_leb_trans (a b c : string) :
  String.leb a b = true -> String.leb b c = true -> String.leb a c = true.
Proof.
  unfold String.leb.
  destruct (String.compare a b) eqn:E1; try discriminate;
    destruct (String.compare b c) eqn:E2; try discriminate; intros _ _.
  - apply String.compare_eq_iff in E1. subst. rewrite E2. reflexivity.
  - apply String.compare_eq_iff in E1. subst. rewrite E2. reflexivity.
  - apply String.compare_eq_iff in E2. subst. rewrite E1. reflexivity.
  - rewrite (string_compare_lt_trans _ _ _ E1 E2). reflexivity.
Qed.

Lemma insert_key_sorted (k : string) (l : list string) :
  Sorted (fun a b => String.leb a b = true) l ->
  Sorted (fun a b => String.leb a b = true) (insert_key k l).
Proof.
  induction l as [|y t IH]; intros Hs; simpl.
  - repeat constructor.
  - destruct (String.leb k y) eqn:E.
    + constructor; [exact Hs|]. constructor. exact E.
    + inversion Hs as [|? ? Ht Hhd]; subst.
      assert (Hyk : String.leb y k = true).
      { destruct (String.leb_total k y) as [H|H]; [congruence|exact H]. }
      constructor; [apply IH; exact Ht|].
      destruct t as [|z t]; simpl.
      * constructor. exact Hyk.
      * destruct (String.leb k z); constructor; [exact Hyk|].
        inversion Hhd; subst. assumption.
Qed.

Lemma group_keys_sorted (key : Row A -> text) (df : list (Row A)) :
  StronglySorted (fun a b => String.leb a b = true) (group_keys key df).
Proof.
  apply Sorted_StronglySorted; [intros a b c; apply string_leb_trans|].
  unfold group_keys, sort_keys.
  induction (nodup string_dec (present_keys key df)) as [|k l IH]; simpl.
  - constructor.
  - apply insert_key_sorted, IH.
Qed.

Lemma strongly_sorted_app (T : Type) (R : T -> T -> Prop) (l1 l2 : list T) :
  StronglySorted R l1 -> StronglySorted R l2 ->
  (forall a b, In a l1 -> In b l2 -> R a b) ->
  StronglySorted R (l1 ++ l2).
Proof.
  intros H1 H2 H. induction H1 as [|a l1 H1 IH Hall]; simpl; [exact H2|].
  constructor.
  - apply IH. intros x y Hx Hy. apply H; [right; exact Hx|exact Hy].
  - apply Forall_app. split; [exact Hall|].
    apply Forall_forall. intros y Hy. apply H; [left; reflexivity|exact Hy].
Qed.

Lemma strongly_sorted_pairs (T : Type) (R : T -> T -> Prop) (l : list T) :
  (forall a b, In a l -> In b l -> R a b) -> StronglySorted R l.
Proof.
  induction l as [|x l IH]; intros H; constructor.
  - apply IH. intros a b Ha Hb. apply H; right; assumption.
  - apply Forall_forall. intros y Hy. apply H; [left; reflexivity|right; exact Hy].
Qed.

Lemma groups_in_state_order (df : list (Row A)) (keys : list string) :
  StronglySorted (fun a b => String.leb a b = true) keys ->
  StronglySorted (@state_le A)
    (List.concat (map (fun k => filter (in_state k) df) keys)).
Proof.
  intros Hs. induction Hs as [|k keys Hs IH Hall]; cbn [map List.concat].
  - constructor.
  - apply strongly_sorted_app; [|exact IH|].
    + apply strongly_sorted_pairs. intros a b Ha Hb.
      apply filter_In in Ha. apply filter_In in Hb.
      destruct Ha as [_ Ha]. destruct Hb as [_ Hb].
      apply has_key_iff in Ha. apply has_key_iff in Hb.
      unfold state_le. rewrite Ha, Hb. simpl. rewrite string_compare_refl. discriminate.
    + intros a b Ha Hb. apply filter_In in Ha. destruct Ha as [_ Ha].
      apply has_key_iff in Ha. apply in_concat in Hb. destruct Hb as [l [Hl Hb]].
      apply in_map_iff in Hl. destruct Hl as [k' [<- Hk']].
      apply filter_In in Hb. destruct Hb as [_ Hb]. apply has_key_iff in Hb.
      unfold state_le. rewrite Ha, Hb. simpl.
      pose proof (proj1 (Forall_forall _ _) Hall k' Hk') as Hle.
      unfold String.leb in Hle. destruct (String.compare k k'); congruence.
Qed.

End ResultOrder.

(** X7: the result of the detection pass is the cleaned rows that have a
    state, sorted by state: its rows are in ascending order of the state,
    and the rows of one state keep the order they have in the frame. *)
Theorem detect_anomalies_sorted_by_state (A : Type) (N : Num A) (df : list (Row A))
  (out : list (FRow A)) :
  detect_anomalies df = Ok out ->
  StronglySorted (@state_le A) (map (@base_row A) out) /\
  forall k, filter (in_state k) (map (@base_row A) out) = filter (in_state k) df.
Proof.
  intros H. split.
  - pose proof (detect_anomalies_base N (@state A) (@total_activity A) df) as Hb.
    unfold detect_anomalies in H. rewrite H in Hb. rewrite Hb.
    unfold groupby. rewrite map_map. cbn [snd].
    apply groups_in_state_order, group_keys_sorted.
  - intros k.
    transitivity (map (@base_row A) (filter (scored_in_state k) out)).
    + clear H. induction out as [|o out IH]; [reflexivity|]. simpl.
      unfold in_state at 1, scored_in_state at 1.
      destruct (has_key k (state (base_row o))); simpl; rewrite IH; reflexivity.
    + rewrite (detect_anomalies_state df k H). apply score_group_base.
Qed.

Lemma detect_anomalies_sorted_by_state_witness :
  match detect_anomalies mixed_frame with
  | Ok out => map (fun o => state (base_row o)) out
              = (repeat (Some "Assam") 10 ++ [Some "Goa"])%list
              /\ StronglySorted (@state_le float) (map (@base_row float) out)
  | Raise _ => False
  end.
Proof.
  destruct (detect_anomalies mixed_frame) as [out|e] eqn:E;
    [|vm_compute in E; discriminate E].
  split.
  - assert (H : match detect_anomalies mixed_frame with
                | Ok o => map (fun o => state (base_row o)) o
                | Raise _ => []
                end = (repeat (Some "Assam") 10 ++ [Some "Goa"])%list)
      by (vm_compute; reflexivity).
    rewrite E in H. exact H.
  - apply (proj1 (detect_anomalies_sorted_by_state FloatNum mixed_frame E)).
Defined.

(** ** The run, by the contracts of the library calls *)

(** The run again, this time with the two library calls whose result is
    not a row-by-row computation taken by their contracts instead of by a
    program: [groupby] iterates over the groups in ascending key order,
    and [sort_values] on several columns is a stable sort.  A run relates
    the input table to every outcome these contracts allow. *)

Section Contracts.

Variable A : Type.
Context {N : Num A}.
Variable parse_number : string -> option A.
Variable format_2f : A -> string.

(** Keys in ascending order, each once. *)
Definition ascending (keys : list string) : Prop :=
  StronglySorted (fun a b => String.leb a b = true) keys /\ NoDup keys.

(** [df.groupby(col)], iterated: the keys are the values of the column,
    ascending; the group of a key holds the rows with that key, in the
    order of the frame. *)
Definition is_groupby (key : Row A -> text) (df : list (Row A))
  (groups : list (string * list (Row A))) : Prop :=
  ascending (map fst groups) /\
  (forall k, In k (map fst groups) <-> exists r, In r df /\ key r = Some k) /\
  (forall k rows, In (k, rows) groups ->
                  rows = filter (fun r => has_key k (key r)) df).

(** Two rows that the three sort columns do not tell apart. *)
Definition same_key (a b : ReportRow A) : bool :=
  match key_compare a b with
  | Eq => true
  | _ => false
  end.

(** [sort_values(['risk_severity', 'state', 'district'])]: the rows in
    ascending order of the three columns, rows with equal keys in the
    order they had. *)
Definition is_sort_values (l out : list (ReportRow A)) : Prop :=
  Permutation out l /\
  StronglySorted (@key_le A) out /\
  forall x, filter (same_key x) out = filter (same_key x) l.

Definition report_header : list string :=
  ["state"; "district"; "time_period"; "enrolment_count"; "update_count";
   "total_activity"; "z_score"; "anomaly_type"; "risk_severity";
   "final_flag"; "recommendation"].

(** The steps of the entry point between reading and writing. *)
Inductive executes (data : RawFrame A) : outcome A -> Prop :=
| exec_prepare_fails e :
    prepare_data parse_number data = Raise e ->
    executes data (Failed A e)
| exec_detect_fails cleaned groups e :
    prepare_data parse_number data = Ok cleaned ->
    is_groupby (@state A) cleaned groups ->
    pd_concat (map (fun kg => score_group (@total_activity A) (snd kg)) groups)
    = Raise e ->
    executes data (Failed A e)
| exec_exports cleaned groups results rows :
    prepare_data parse_number data = Ok cleaned ->
    is_groupby (@state A) cleaned groups ->
    pd_concat (map (fun kg => score_group (@total_activity A) (snd kg)) groups)
    = Ok results ->
    is_sort_values (map (report_row format_2f) (filter (@is_flagged A) results)) rows ->
    executes data (Exported {| report_columns := report_header; report_rows := rows |}).

(** *** The groups are determined *)

Lemma ascending_tail (a : string) (l : list string) : ascending (a :: l) -> ascending l.
Proof.
  intros [Hs Hn]. inversion Hs; subst. inversion Hn; subst. split; assumption.
Qed.

Lemma ascending_head (a k : string) (l : list string) :
  ascending (a :: l) -> In k (a :: l) -> String.leb a k = true.
Proof.
  intros [Hs _] [<-|Hk].
  - destruct (String.leb_total a a); assumption.
  - inversion Hs as [|? ? _ Hall]; subst.
    apply (proj1 (Forall_forall _ _) Hall k Hk).
Qed.

Lemma ascending_unique (l1 l2 : list string) :
  ascending l1 -> ascending l2 -> (forall k, In k l1 <-> In k l2) -> l1 = l2.
Proof.
  revert l2. induction l1 as [|a t1 IH]; intros [|b t2] H1 H2 Hin.
  - reflexivity.
  - exfalso. apply (proj2 (Hin b)). left. reflexivity.
  - exfalso. apply (proj1 (Hin a)). left. reflexivity.
  - assert (E : a = b).
    { apply String.leb_antisym.
      - apply (ascending_head H1). apply Hin. left. reflexivity.
      - apply (ascending_head H2). apply Hin. left. reflexivity. }
    subst b. f_equal. apply IH; [apply (ascending_tail H1)|apply (ascending_tail H2)|].
    destruct H1 as [_ N1], H2 as [_ N2]. inversion N1; subst. inversion N2; subst.
    intros k. split; intros Hk.
    + destruct (proj1 (Hin k) (or_intror Hk)) as [<-|Hk2]; [contradiction|exact Hk2].
    + destruct (proj2 (Hin k) (or_intror Hk)) as [<-|Hk1]; [contradiction|exact Hk1].
Qed.

Lemma groups_of_keys (T : Type) (f : string -> T) (groups : list (string * T)) :
  (forall k rows, In (k, rows) groups -> rows = f k) ->
  groups = map (fun k => (k, f k)) (map fst groups).
Proof.
  induction groups as [|[k rows] groups IH]; intros H; [reflexivity|].
  simpl. rewrite (H k rows (or_introl eq_refl)). f_equal.
  apply IH. intros k' rows' Hin. apply H. right. exact Hin.
Qed.

Lemma is_groupby_unique (key : Row A -> text) (df : list (Row A))
  (g1 g2 : list (string * list (Row A))) :
  is_groupby key df g1 -> is_groupby key df g2 -> g1 = g2.
Proof.
  intros [A1 [K1 R1]] [A2 [K2 R2]].
  rewrite (groups_of_keys _ g1 R1), (groups_of_keys _ g2 R2). f_equal.
  apply ascending_unique; [exact A1|exact A2|].
  intros k. rewrite K1, K2. reflexivity.
Qed.

Lemma groupby_is_groupby (key : Row A -> text) (df : list (Row A)) :
  is_groupby key df (groupby key df).
Proof.
  split; [|split].
  - rewrite groupby_keys. split; [apply group_keys_sorted|apply group_keys_nodup].
  - intros k. rewrite groupby_keys. apply in_group_keys.
  - intros k rows Hin. apply in_groupby in Hin. apply Hin.
Qed.

(** *** The order of the report is determined *)

Lemma same_key_iff (a b : ReportRow A) :
  same_key a b = true <->
  r_risk_severity a = r_risk_severity b /\ r_state a = r_state b /\
  r_district a = r_district b.
Proof.
  unfold same_key, key_compare. split.
  - destruct (String.compare (r_risk_severity a) (r_risk_severity b)) eqn:S;
      try discriminate.
    destruct (text_compare (r_state a) (r_state b)) eqn:T; try discriminate.
    destruct (text_compare (r_district a) (r_district b)) eqn:D; try discriminate.
    intros _. split; [apply String.compare_eq_iff, S|].
    split; apply text_compare_eq; assumption.
  - intros [-> [-> ->]].
    rewrite string_compare_refl, !text_compare_refl. reflexivity.
Qed.

Lemma same_key_refl (a : ReportRow A) : same_key a a = true.
Proof. apply same_key_iff. auto. Qed.

Lemma same_key_leb (a b : ReportRow A) : same_key a b = true -> key_leb a b = true.
Proof.
  unfold same_key, key_leb. destruct (key_compare a b); [reflexivity|discriminate..].
Qed.

Lemma key_le_both (a b : ReportRow A) : key_le a b -> key_le b a -> same_key a b = true.
Proof.
  unfold key_le, key_leb, same_key. rewrite (key_compare_antisym b a).
  destruct (key_compare a b); simpl; congruence.
Qed.

(** The insertion passes only rows with a smaller key, so it keeps the
    order of the rows with the key of the new row. *)
Lemma filter_insert_row (x r : ReportRow A) (l : list (ReportRow A)) :
  filter (same_key x) (insert_row r l) = filter (same_key x) (r :: l).
Proof.
  induction l as [|y t IH]; [reflexivity|].
  cbn [insert_row]. destruct (key_leb r y) eqn:E; [reflexivity|].
  cbn [filter]. rewrite IH. cbn [filter].
  destruct (same_key x y) eqn:Sy; destruct (same_key x r) eqn:Sr; try reflexivity.
  exfalso. apply same_key_iff in Sy, Sr.
  assert (Hry : same_key r y = true).
  { apply same_key_iff. destruct Sy as [S1 [S2 S3]], Sr as [R1 [R2 R3]].
    rewrite <- R1, <- R2, <- R3. auto. }
  apply same_key_leb in Hry. congruence.
Qed.

Lemma sort_values_stable (x : ReportRow A) (l : list (ReportRow A)) :
  filter (same_key x) (sort_values l) = filter (same_key x) l.
Proof.
  induction l as [|r l IH]; [reflexivity|].
  cbn [sort_values fold_right]. fold (sort_values l).
  rewrite filter_insert_row. cbn [filter]. rewrite IH. reflexivity.
Qed.

Lemma sort_values_is_sort_values (l : list (ReportRow A)) :
  is_sort_values l (sort_values l).
Proof.
  split; [apply sort_values_perm|]. split; [apply sort_values_strongly_sorted|].
  intros x. apply sort_values_stable.
Qed.

Lemma sorted_head_le (a b : ReportRow A) (t : list (ReportRow A)) :
  StronglySorted (@key_le A) (a :: t) -> In b (a :: t) -> key_le a b.
Proof.
  intros Hs [<-|Hb].
  - apply same_key_leb, same_key_refl.
  - inversion Hs as [|? ? _ Hall]; subst.
    apply (proj1 (Forall_forall _ _) Hall b Hb).
Qed.

(** Two stable sorts of the same rows are the same list. *)
Lemma stable_sorted_unique (l1 l2 : list (ReportRow A)) :
  StronglySorted (@key_le A) l1 -> StronglySorted (@key_le A) l2 ->
  Permutation l1 l2 ->
  (forall x, filter (same_key x) l1 = filter (same_key x) l2) ->
  l1 = l2.
Proof.
  revert l2. induction l1 as [|a t1 IH]; intros [|b t2] S1 S2 P F.
  - reflexivity.
  - apply Permutation_nil in P. discriminate P.
  - apply Permutation_sym, Permutation_nil in P. discriminate P.
  - assert (Hab : same_key a b = true).
    { apply key_le_both.
      - apply (sorted_head_le S1). apply (Permutation_in _ (Permutation_sym P)).
        left. reflexivity.
      - apply (sorted_head_le S2). apply (Permutation_in _ P). left. reflexivity. }
    assert (E : a = b).
    { pose proof (F a) as Fa. cbn [filter] in Fa.
      rewrite same_key_refl, Hab in Fa. injection Fa as E _. exact E. }
    subst b. f_equal. apply IH.
    + inversion S1; assumption.
    + inversion S2; assumption.
    + apply (Permutation_cons_inv P).
    + intros x. pose proof (F x) as Fx. cbn [filter] in Fx.
      destruct (same_key x a); [injection Fx as Fx|]; exact Fx.
Qed.

Lemma is_sort_values_unique (l out out' : list (ReportRow A)) :
  is_sort_values l out -> is_sort_values l out' -> out = out'.
Proof.
  intros [P [S F]] [P' [S' F']]. apply stable_sorted_unique; [exact S|exact S'| |].
  - apply (Permutation_trans P (Permutation_sym P')).
  - intros x. rewrite F, F'. reflexivity.
Qed.

(** *** The outcomes of a run *)

Lemma executes_pipeline (data : RawFrame A) (o : outcome A) :
  executes data o ->
  match pipeline parse_number format_2f data with
  | Ok report => o = Exported report
  | Raise e => o = Failed A e
  end.
Proof.
  unfold pipeline, bind, detect_anomalies, detect_anomalies_by.
  intros H. destruct H as [e P|cleaned groups e P G C|cleaned groups results rows P G C S];
    rewrite P; [reflexivity| |];
    rewrite (is_groupby_unique G (groupby_is_groupby (@state A) cleaned)) in C;
    rewrite C; [reflexivity|].
  unfold generate_flagged_report. fold report_header. do 2 f_equal.
  apply (is_sort_values_unique S (sort_values_is_sort_values _)).
Qed.

Lemma pipeline_executes (data : RawFrame A) :
  executes data
    match pipeline parse_number format_2f data with
    | Ok report => Exported report
    | Raise e => Failed A e
    end.
Proof.
  unfold pipeline, bind, detect_anomalies, detect_anomalies_by.
  destruct (prepare_data parse_number data) as [cleaned|e] eqn:P;
    [|apply exec_prepare_fails; exact P].
  destruct (pd_concat _) as [results|e] eqn:C.
  - unfold generate_flagged_report. fold report_header.
    eapply exec_exports;
      [exact P|apply groupby_is_groupby|exact C|apply sort_values_is_sort_values].
  - eapply exec_detect_fails; [exact P|apply groupby_is_groupby|exact C].
Qed.

End Contracts.

(** C9: every input table has an outcome of the run (the exported report
    or the error), whatever order [groupby] finds the keys in and
    whatever stable algorithm [sort_values] uses, any two runs on the same
    table end with the same outcome, and it is the one the engine's
    functions compute: the outcome is a function of the input table. *)
Theorem run_is_deterministic (A : Type) (N : Num A)
  (parse_number : string -> option A) (format_2f : A -> string)
  (data : RawFrame A) :
  (exists o, executes parse_number format_2f data o) /\
  (forall o1 o2,
     executes parse_number format_2f data o1 ->
     executes parse_number format_2f data o2 -> o1 = o2) /\
  (forall o,
     executes parse_number format_2f data o <->
     match pipeline parse_number format_2f data with
     | Ok report => o = Exported report
     | Raise e => o = Failed A e
     end).
Proof.
  split; [|split].
  - eexists. apply pipeline_executes.
  - intros o1 o2 H1 H2. apply executes_pipeline in H1, H2.
    destruct (pipeline parse_number format_2f data); congruence.
  - intros o. split; [apply executes_pipeline|].
    intros H. pose proof (pipeline_executes parse_number format_2f data) as He.
    destruct (pipeline parse_number format_2f data); subst o; exact He.
Qed.

(** Two flagged rows of one district that differ in the period only. *)
Definition tied_row (period : string) : ReportRow float :=
  {| r_state := Some "Goa"; r_district := Some "North Goa";
     r_time_period := Some period;
     r_enrolment_count := 3%float; r_update_count := 2%float;
     r_total_activity := 5%float; r_z_score := 0%float;
     r_anomaly_type := "Dark Spot"; r_risk_severity := "Medium";
     r_final_flag := "DARK_SPOT_MEDIUM"; r_recommendation := "" |}.

(** The order of such rows is fixed by the stability of the sort alone:
    both orders are sorted permutations, only one is stable. *)
Example ties_need_stability :
  let l := [tied_row "2025-02"; tied_row "2025-01"] in
  let l' := [tied_row "2025-01"; tied_row "2025-02"] in
  Permutation l' l /\ StronglySorted (@key_le float) l' /\
  StronglySorted (@key_le float) l /\ l' <> l /\
  is_sort_values l l /\ ~ is_sort_values l l'.
Proof.
  intros l l'. split; [apply perm_swap|].
  split; [repeat constructor|]. split; [repeat constructor|].
  split; [discriminate|]. split.
  - split; [apply Permutation_refl|]. split; [repeat constructor|]. reflexivity.
  - intros [_ [_ F]]. specialize (F (tied_row "2025-01")). discriminate F.
Qed.


(** ** The report of a run *)

Section RunReport.

Variable A : Type.
Context {N : Num A}.
Variable parse_number : string -> option A.
Variable format_2f : A -> string.

(** What a row of the report says when it comes from a reconciled row. *)
Definition report_row_ok (row : ReportRow A) : Prop :=
  (r_risk_severity row = "High" \/ r_risk_severity row = "Medium") /\
  ((r_anomaly_type row = "Hot Spot" /\
    r_recommendation row =
      "Activity " ++ format_2f (fabs (r_z_score row))
      ++ " SD above state average – Review for abnormal spikes") \/
   (r_anomaly_type row = "Dark Spot" /\
    r_recommendation row =
      "Activity " ++ format_2f (fabs (r_z_score row))
      ++ " SD below state average – Check service availability")).

Lemma report_row_of_triple (o : FRow A) :
  In (final_flag o, risk_severity o, anomaly_type o) verdict_triples ->
  is_flagged o = true -> report_row_ok (report_row format_2f o).
Proof.
  unfold report_row_ok, report_row, recommendation, is_flagged. simpl.
  intros [H|[H|[H|[H|[H|[]]]]]] Hf; injection H as H1 H2 H3;
    rewrite <- ?H1, <- ?H2, <- ?H3 in *; simpl in *; try discriminate Hf; auto.
Qed.

Lemma high_block_first (l : list (ReportRow A)) :
  StronglySorted (@tuple_le A) l ->
  Forall (fun row => r_risk_severity row = "High" \/ r_risk_severity row = "Medium") l ->
  exists high medium,
    l = (high ++ medium)%list /\
    Forall (fun row => r_risk_severity row = "High") high /\
    Forall (fun row => r_risk_severity row = "Medium") medium.
Proof.
  intros Hs. induction Hs as [|a l Hs IH Hall]; intros Hsev.
  - exists [], []. repeat split; constructor.
  - inversion Hsev as [|? ? Ha Hl]; subst. destruct Ha as [Ha|Ha].
    + destruct (IH Hl) as [h [m [-> [Hh Hm]]]]. exists (a :: h), m.
      repeat split; [constructor; assumption|exact Hm].
    + exists [], (a :: l). repeat split; [constructor|].
      constructor; [exact Ha|]. apply Forall_forall. intros b Hb.
      pose proof (proj1 (Forall_forall _ _) Hall b Hb) as Hab.
      pose proof (proj1 (Forall_forall _ _) Hl b Hb) as [Hb'|Hb']; [|exact Hb'].
      exfalso. unfold tuple_le in Hab. rewrite Ha, Hb' in Hab. simpl in Hab.
      destruct Hab as [H|[H _]]; discriminate H.
Qed.

Lemma detect_anomalies_triples (df : list (Row A)) (out : list (FRow A)) :
  detect_anomalies df = Ok out ->
  Forall (fun o => In (final_flag o, risk_severity o, anomaly_type o) verdict_triples)
         out.
Proof.
  apply detect_anomalies_forall. intros group. apply Forall_forall.
  intros o Ho. apply (in_combine_flags_triple _ o Ho).
Qed.

End RunReport.

(** X8: the report of a run that ends well: every row has the severity High
    or Medium and the type Hot Spot or Dark Spot, its recommendation is
    the sentence of its type (above the state average for a Hot Spot,
    below for a Dark Spot) with the formatted distance of its z-score from
    zero, and all High rows come before all Medium rows. *)
Theorem pipeline_report_rows (A : Type) (N : Num A)
  (parse_number : string -> option A) (format_2f : A -> string)
  (data : RawFrame A) (report : Report A) :
  pipeline parse_number format_2f data = Ok report ->
  Forall (report_row_ok format_2f) (report_rows report) /\
  exists high medium,
    report_rows report = (high ++ medium)%list /\
    Forall (fun row => r_risk_severity row = "High") high /\
    Forall (fun row => r_risk_severity row = "Medium") medium.
Proof.
  unfold pipeline, bind. intros H.
  destruct (prepare_data parse_number data) as [cleaned|e]; [|discriminate H].
  destruct (detect_anomalies cleaned) as [results|e] eqn:D; [|discriminate H].
  injection H as <-.
  assert (Hok : Forall (report_row_ok format_2f)
                  (report_rows (generate_flagged_report format_2f results))).
  { apply Forall_forall. intros row Hrow. cbn [generate_flagged_report report_rows] in Hrow.
    apply (Permutation_in _ (sort_values_perm _)) in Hrow.
    apply in_map_iff in Hrow. destruct Hrow as [o [<- Ho]].
    apply filter_In in Ho. destruct Ho as [Ho Hf].
    apply report_row_of_triple; [|exact Hf].
    apply (proj1 (Forall_forall _ _) (detect_anomalies_triples cleaned D) o Ho). }
  split; [exact Hok|]. apply high_block_first.
  - cbn [generate_flagged_report report_rows].
    apply (strongly_sorted_weaken (P := @key_le A));
      [|apply sort_values_strongly_sorted].
    intros a b Hab. apply key_le_tuple, Hab.
  - apply (Forall_impl _ (fun row H => proj1 H) Hok).
Qed.

Lemma pipeline_report_rows_witness :
  match pipeline Samples.no_parse (fun _ : float => "?") Samples.two_state_frame with
  | Ok report =>
      List.length (report_rows report) = 2%nat /\
      Forall (report_row_ok (fun _ : float => "?")) (report_rows report)
  | Raise _ => False
  end.
Proof.
  destruct (pipeline Samples.no_parse (fun _ : float => "?") Samples.two_state_frame)
    as [report|e] eqn:E; [|vm_compute in E; discriminate E].
  split.
  - assert (H : match pipeline Samples.no_parse (fun _ : float => "?")
                        Samples.two_state_frame with
                | Ok r => List.length (report_rows r)
                | Raise _ => 0%nat
                end = 2%nat) by (vm_compute; reflexivity).
    rewrite E in H. exact H.
  - apply (proj1 (pipeline_report_rows FloatNum Samples.no_parse (fun _ : float => "?")
                    Samples.two_state_frame E)).
Defined.

(** ** Preparing a prepared table *)

Section Reprepare.

Variable A : Type.
Context {N : Num A}.
Variable parse_number : string -> option A.

(** The cleaned table as a table again: the columns of the input and the
    derived one, the counts as numbers. *)
Definition as_raw (r : Row A) : RawRow A :=
  {| raw_state := state r;
     raw_district := district r;
     raw_time_period := time_period r;
     raw_enrolment_count := CNum (enrolment_count r);
     raw_update_count := CNum (update_count r) |}.

Definition with_total_activity (cols : list string) : list string :=
  if existsb (String.eqb "total_activity") cols then cols
  else (cols ++ ["total_activity"])%list.

Definition as_frame (cols : list string) (rows : list (Row A)) : RawFrame A :=
  {| columns := with_total_activity cols; raw_rows := map as_raw rows |}.

(** A row that a second preparation leaves as it is. *)
Definition settled (r : Row A) : Prop :=
  fisnan (enrolment_count r) = false /\ fisnan (update_count r) = false /\
  total_activity r = fadd (enrolment_count r) (update_count r).

Lemma to_numeric_not_nan (c : cell A) (x : A) :
  to_numeric parse_number c = Some x -> fisnan x = false.
Proof.
  unfold to_numeric.
  destruct (match c with CNum x0 => Some x0 | CStr s => parse_number s | CNA => None end)
    as [y|]; [|discriminate].
  destruct (fisnan y) eqn:E; [discriminate|]. intros H. injection H as <-. exact E.
Qed.

Lemma dropna_rows_settled (rows : list (RawRow A)) :
  Forall settled (dropna_rows parse_number rows).
Proof.
  pose proof (dropna_rows_kept parse_number rows) as H.
  induction H as [|raw row l l' Hc _ IH]; constructor; [|exact IH].
  destruct Hc as [_ [_ [_ [He [Hu Ht]]]]]. unfold settled.
  rewrite (to_numeric_not_nan _ He), (to_numeric_not_nan _ Hu). auto.
Qed.

Lemma prepare_row_fixed (r : Row A) :
  settled r -> prepare_row parse_number (as_raw r) = Some r.
Proof.
  intros [He [Hu Ht]]. unfold prepare_row, as_raw, to_numeric. cbn.
  rewrite He, Hu. destruct r. simpl in *. rewrite Ht. reflexivity.
Qed.

Lemma dropna_rows_fixed (rows : list (Row A)) :
  Forall settled rows -> dropna_rows parse_number (map as_raw rows) = rows.
Proof.
  induction 1 as [|r rows Hr _ IH]; [reflexivity|].
  cbn [map dropna_rows]. rewrite (prepare_row_fixed Hr), IH. reflexivity.
Qed.

Lemma with_total_activity_incl (cols : list string) (c : string) :
  In c cols -> In c (with_total_activity cols).
Proof.
  unfold with_total_activity. destruct (existsb _ cols); [auto|].
  intros H. apply in_or_app. left. exact H.
Qed.

End Reprepare.

(** X9: Preparing twice is preparing once: the table that [prepare_data]
    returns passes the schema check, none of its rows is dropped, and the
    derived total_activity, recomputed from the two counts, is the one it
    has. *)
Theorem prepare_data_idempotent (A : Type) (N : Num A)
  (parse_number : string -> option A) (df : RawFrame A) (rows : list (Row A)) :
  prepare_data parse_number df = Ok rows ->
  prepare_data parse_number (as_frame (columns df) rows) = Ok rows /\
  Forall (fun r => total_activity r = fadd (enrolment_count r) (update_count r)) rows.
Proof.
  intros H.
  destruct (prepare_data_cases parse_number df) as [[Hm Hp]|[Hm Hp]];
    rewrite Hp in H; [|discriminate H]. injection H as <-.
  pose proof (dropna_rows_settled parse_number (raw_rows df)) as Hs.
  split.
  - destruct (prepare_data_cases parse_number
                (as_frame (columns df) (dropna_rows parse_number (raw_rows df))))
      as [[Hm' Hp']|[Hm' Hp']].
    + rewrite Hp'. cbn [as_frame raw_rows]. rewrite (dropna_rows_fixed parse_number Hs).
      reflexivity.
    + exfalso. apply Hm'.
      destruct (missing_cols (as_frame (columns df) _)) as [|c l] eqn:E; [reflexivity|].
      assert (Hc : In c (missing_cols
                           (as_frame (columns df)
                              (dropna_rows parse_number (raw_rows df)))))
        by (rewrite E; left; reflexivity).
      apply in_missing_cols in Hc. destruct Hc as [Hr Ha]. exfalso. apply Ha.
      cbn [as_frame columns]. apply with_total_activity_incl.
      destruct (in_dec string_dec c (columns df)) as [Hin|Hout]; [exact Hin|].
      assert (Hmiss : In c (missing_cols df)) by (apply in_missing_cols; auto).
      rewrite Hm in Hmiss. destruct Hmiss.
  - apply (Forall_impl _ (fun r (H : settled r) => proj2 (proj2 H)) Hs).
Qed.

Lemma prepare_data_idempotent_witness :
  prepare_data Samples.no_parse
    (as_frame (columns Samples.abc_frame)
              [Samples.row "Goa" "South Goa" 6%float 1%float])
  = Ok [Samples.row "Goa" "South Goa" 6%float 1%float].
Proof.
  apply (prepare_data_idempotent FloatNum Samples.no_parse Samples.abc_frame).
  vm_compute. reflexivity.
Defined.

(** ** The entry point *)

(** What reading or writing a file ends with: done, the file is not
    there, or any other failure with its message. *)
Inductive io_result (T : Type) : Type :=
| Done (v : T)
| FileNotFound
| Fails (msg : string).
Arguments Done {T} v.
Arguments FileNotFound {T}.
Arguments Fails {T} msg.

(** [str(n)] of a count. *)
Definition nat_str (n : nat) : string := NilEmpty.string_of_uint (Nat.to_uint n).

Section EntryPoint.

Variable A : Type.
Context {N : Num A}.
Variable parse_number : string -> option A.
Variable format_2f : A -> string.

(** [data.rename(columns={'date': 'time_period', 'total_enrolments':
    'enrolment_count', 'total_updates': 'update_count'})]: the names of
    the columns change, the cells do not. *)
Definition rename_column (c : string) : string :=
  if String.eqb c "date" then "time_period"
  else if String.eqb c "total_enrolments" then "enrolment_count"
  else if String.eqb c "total_updates" then "update_count"
  else c.

Definition rename_columns (df : RawFrame A) : RawFrame A :=
  {| columns := map rename_column (columns df); raw_rows := raw_rows df |}.

(** [report['state'].nunique()]: the distinct states, missing ones not
    counted. *)
Definition states_covered (report : Report A) : nat :=
  List.length
    (nodup string_dec
       (flat_map (fun r => match r_state r with Some k => [k] | None => [] end)
                 (report_rows report))).

Definition not_found_message : string :=
  "Input file not found. Please place india_master_cleaned.csv in data/processed/".

Definition success_lines (report : Report A) : list string :=
  ["State-wise anomaly detection completed successfully.";
   "Total flagged records: " ++ nat_str (List.length (report_rows report));
   "States covered: " ++ nat_str (states_covered report)].

(** The body of the entry point, given what [pd.read_csv] ends with and
    what [to_csv] does with a report: the report that was written, if any,
    and the lines that were printed.  An error of any stage is caught and
    printed; FileNotFoundError has its own line. *)
Definition main (read_csv : io_result (RawFrame A))
  (to_csv : Report A -> io_result unit) : option (Report A) * list string :=
  match read_csv with
  | FileNotFound => (None, [not_found_message])
  | Fails msg => (None, ["Error: " ++ msg])
  | Done data =>
      match pipeline parse_number format_2f (rename_columns data) with
      | Raise (ValueError msg) => (None, ["Error: " ++ msg])
      | Ok report =>
          match to_csv report with
          | Done _ => (Some report, success_lines report)
          | FileNotFound => (None, [not_found_message])
          | Fails msg => (None, ["Error: " ++ msg])
          end
      end
  end.

(** The raw names of a column that is required after renaming. *)
Definition sources_of (c : string) : list string :=
  if String.eqb c "time_period" then ["time_period"; "date"]
  else if String.eqb c "enrolment_count" then ["enrolment_count"; "total_enrolments"]
  else if String.eqb c "update_count" then ["update_count"; "total_updates"]
  else [c].

Lemma rename_column_sources (c0 c : string) :
  In c required_cols -> (rename_column c0 = c <-> In c0 (sources_of c)).
Proof.
  intros Hc. unfold rename_column.
  destruct (String.eqb_spec c0 "date") as [->|H1];
    [|destruct (String.eqb_spec c0 "total_enrolments") as [->|H2];
      [|destruct (String.eqb_spec c0 "total_updates") as [->|H3]]].
  - destruct Hc as [<-|[<-|[<-|[<-|[<-|[]]]]]]; simpl; split; intros H;
      try discriminate H; auto; repeat (destruct H as [H|H]; try discriminate H);
      try contradiction.
  - destruct Hc as [<-|[<-|[<-|[<-|[<-|[]]]]]]; simpl; split; intros H;
      try discriminate H; auto; repeat (destruct H as [H|H]; try discriminate H);
      try contradiction.
  - destruct Hc as [<-|[<-|[<-|[<-|[<-|[]]]]]]; simpl; split; intros H;
      try discriminate H; auto; repeat (destruct H as [H|H]; try discriminate H);
      try contradiction.
  - destruct Hc as [<-|[<-|[<-|[<-|[<-|[]]]]]]; simpl; split; intros H;
      subst; auto; repeat (destruct H as [H|H]; try congruence); try contradiction.
Qed.

Lemma in_renamed (df : RawFrame A) (c : string) :
  In c required_cols ->
  (In c (columns (rename_columns df)) <->
   exists c0, In c0 (sources_of c) /\ In c0 (columns df)).
Proof.
  intros Hc. cbn [rename_columns columns]. rewrite in_map_iff. split.
  - intros [c0 [E Hin]]. exists c0. split; [apply (rename_column_sources c0 Hc), E|exact Hin].
  - intros [c0 [Hs Hin]]. exists c0. split; [apply (rename_column_sources c0 Hc), Hs|exact Hin].
Qed.

End EntryPoint.

(** X12: the schema check after the renaming of the entry point: a required
    column is missing exactly when neither it nor the raw name that is
    renamed to it (date, total_enrolments, total_updates) is a column of
    the table that was read. *)
Theorem renamed_schema (A : Type) (df : RawFrame A) (c : string) :
  In c (missing_cols (rename_columns df)) <->
  In c required_cols /\ forall c0, In c0 (sources_of c) -> ~ In c0 (columns df).
Proof.
  rewrite in_missing_cols. split.
  - intros [Hc Hn]. split; [exact Hc|]. intros c0 Hs Hin. apply Hn.
    apply (in_renamed df Hc). exists c0. auto.
  - intros [Hc Hn]. split; [exact Hc|]. intros Hin.
    apply (in_renamed df Hc) in Hin. destruct Hin as [c0 [Hs Hin]]. apply (Hn c0 Hs Hin).
Qed.

Section EntryPointRuns.

Variable A : Type.
Context {N : Num A}.
Variable parse_number : string -> option A.
Variable format_2f : A -> string.

Lemma forall2_in_l (X Y : Type) (P : X -> Y -> Prop) (l : list X) (l' : list Y) (x : X) :
  Forall2 P l l' -> In x l -> exists y, In y l' /\ P x y.
Proof.
  induction 1 as [|a b l l' Hab _ IH]; intros Hin; [destruct Hin|].
  destruct Hin as [->|Hin].
  - exists b. split; [left; reflexivity|exact Hab].
  - destruct (IH Hin) as [y [Hy Hp]]. exists y. split; [right; exact Hy|exact Hp].
Qed.

Lemma forall2_in_r (X Y : Type) (P : X -> Y -> Prop) (l : list X) (l' : list Y) (y : Y) :
  Forall2 P l l' -> In y l' -> exists x, In x l /\ P x y.
Proof.
  induction 1 as [|a b l l' Hab _ IH]; intros Hin; [destruct Hin|].
  destruct Hin as [->|Hin].
  - exists a. split; [left; reflexivity|exact Hab].
  - destruct (IH Hin) as [x [Hx Hp]]. exists x. split; [right; exact Hx|exact Hp].
Qed.

(** The cleaned frame has a row with a state exactly when the raw table
    has a row with both counts and a state. *)
Lemma cleaned_has_state (rows : list (RawRow A)) :
  (exists r, In r (dropna_rows parse_number rows) /\ state r <> None) <->
  (exists raw, In raw rows /\ counts_present parse_number raw = true /\
               raw_state raw <> None).
Proof.
  pose proof (dropna_rows_kept parse_number rows) as H. split.
  - intros [r [Hr Hs]]. destruct (forall2_in_r r H Hr) as [raw [Hraw Hc]].
    apply filter_In in Hraw. destruct Hraw as [Hraw Hp].
    exists raw. split; [exact Hraw|]. split; [exact Hp|].
    destruct Hc as [E _]. rewrite <- E. exact Hs.
  - intros [raw [Hraw [Hp Hs]]].
    assert (Hin : In raw (filter (counts_present parse_number) rows))
      by (apply filter_In; auto).
    destruct (forall2_in_l raw H Hin) as [r [Hr Hc]].
    exists r. split; [exact Hr|]. destruct Hc as [E _]. rewrite E. exact Hs.
Qed.

End EntryPointRuns.

(** X13: what the entry point prints and writes when the file is read and the
    export works, for a table whose column names stay distinct under the
    renaming.  With a required column missing after the renaming it
    writes nothing and prints the one line "Error: Missing required
    columns: [...]".  With the columns present but no row that has both
    counts and a state, it writes nothing and prints "Error: No objects
    to concatenate".  Otherwise it writes the report of the engine and
    prints the three lines of a successful run, the second with the
    number of rows of the report. *)
Theorem main_outcomes (A : Type) (N : Num A) (parse_number : string -> option A)
  (format_2f : A -> string) (to_csv : Report A -> io_result unit) (df : RawFrame A) :
  NoDup (map rename_column (columns df)) ->
  (forall report, to_csv report = Done tt) ->
  let renamed := rename_columns df in
  let run := main parse_number format_2f (Done df) to_csv in
  (missing_cols renamed <> [] ->
   run = (None, ["Error: Missing required columns: " ++ repr_list (missing_cols renamed)])) /\
  (missing_cols renamed = [] ->
   (forall raw, In raw (raw_rows df) -> counts_present parse_number raw = true ->
                raw_state raw = None) ->
   run = (None, ["Error: No objects to concatenate"])) /\
  (missing_cols renamed = [] ->
   (exists raw, In raw (raw_rows df) /\ counts_present parse_number raw = true /\
                raw_state raw <> None) ->
   exists report,
     pipeline parse_number format_2f renamed = Ok report /\
     run = (Some report,
            ["State-wise anomaly detection completed successfully.";
             "Total flagged records: " ++ nat_str (List.length (report_rows report));
             "States covered: " ++ nat_str (states_covered report)])).
Proof.
  intros _ Hcsv renamed run. subst run. unfold main, pipeline, bind.
  fold renamed.
  destruct (prepare_data_cases parse_number renamed) as [[Hm Hp]|[Hm Hp]];
    rewrite Hp.
  - pose proof (detect_anomalies_keyed (dropna_rows parse_number (raw_rows renamed)))
      as Hd.
    pose proof (cleaned_has_state parse_number (raw_rows renamed)) as Hs.
    change (raw_rows renamed) with (raw_rows df) in *.
    destruct (detect_anomalies (dropna_rows parse_number (raw_rows df)))
      as [out|e] eqn:E.
    + split; [intros Hn; contradiction|]. split.
      * intros _ Hnone. exfalso. destruct Hd as [Hperm Hout].
        destruct out as [|o out]; [apply Hout; reflexivity|].
        assert (Hin : In (base_row o)
                         (filter (keyed (@state A)) (dropna_rows parse_number (raw_rows df)))).
        { apply (Permutation_in _ Hperm). left. reflexivity. }
        apply filter_In in Hin. destruct Hin as [Hin Hk].
        assert (Hex : exists r, In r (dropna_rows parse_number (raw_rows df)) /\
                                state r <> None).
        { exists (base_row o). split; [exact Hin|]. unfold keyed in Hk.
          destruct (state (base_row o)); [discriminate|discriminate Hk]. }
        apply Hs in Hex. destruct Hex as [raw [Hraw [Hc Hst]]].
        apply Hst, (Hnone raw Hraw Hc).
      * intros _ _. exists (generate_flagged_report format_2f out).
        split; [reflexivity|]. rewrite Hcsv. reflexivity.
    + destruct Hd as [Hnil ->]. split; [intros Hn; contradiction|]. split.
      * intros _ _. reflexivity.
      * intros _ Hex. exfalso. apply Hs in Hex. destruct Hex as [r [Hr Hst]].
        apply Hst. apply (proj1 (keyed_none _) Hnil r Hr).
  - split; [intros _; reflexivity|]. split; intros Hn; contradiction.
Qed.

Definition renamed_frame : RawFrame float :=
  {| columns := ["state"; "district"; "date"; "total_enrolments"; "total_updates"];
     raw_rows := raw_rows Samples.two_state_frame |}.

Lemma main_outcomes_witness :
  exists report,
    main Samples.no_parse (fun _ => "?") (Done renamed_frame) (fun _ => Done tt)
    = (Some report,
       ["State-wise anomaly detection completed successfully.";
        "Total flagged records: " ++ nat_str (List.length (report_rows report));
        "States covered: " ++ nat_str (states_covered report)]).
Proof.
  assert (Hd : NoDup (map rename_column (columns renamed_frame))).
  { vm_compute. repeat constructor; simpl; intuition discriminate. }
  destruct (main_outcomes FloatNum Samples.no_parse (fun _ => "?")
              (fun _ => Done tt) renamed_frame Hd (fun _ => eq_refl))
    as [_ [_ H]].
  destruct H as [report [_ H]].
  - vm_compute. reflexivity.
  - cbn [renamed_frame raw_rows]. unfold Samples.two_state_frame. cbn [raw_rows].
    eexists. split; [left; reflexivity|]. vm_compute.
    split; [reflexivity|discriminate].
  - exists report. exact H.
Defined.

(** * The dashboard *)

(** The dashboard reads the exported table back and filters it.  Of a row
    it tests three columns; a cell read back is a text or missing. *)
Record DashRow : Type := mkDashRow {
  d_state : text;
  d_risk_severity : text;
  d_anomaly_type : text
}.

(** [series == s] on one cell: a missing cell equals nothing. *)
Definition text_is (s : string) (t : text) : bool :=
  match t with
  | Some x => String.eqb x s
  | None => false
  end.

(** [series.isin(values)] on one cell. *)
Definition isin (values : list string) (t : text) : bool :=
  match t with
  | Some x => existsb (String.eqb x) values
  | None => false
  end.

(** The three filters of the sidebar, applied in the order of the source;
    the state filter is skipped for the entry "All". *)
Definition apply_filters (state_filter : string) (severity_filter type_filter : list string)
  (df : list DashRow) : list DashRow :=
  let filtered := df in
  let filtered :=
    if negb (String.eqb state_filter "All")
    then filter (fun r => text_is state_filter (d_state r)) filtered
    else filtered in
  let filtered := filter (fun r => isin severity_filter (d_risk_severity r)) filtered in
  filter (fun r => isin type_filter (d_anomaly_type r)) filtered.

Definition severity_count (s : string) (filtered : list DashRow) : nat :=
  List.length (filter (fun r => text_is s (d_risk_severity r)) filtered).

(** The four numbers of the summary. *)
Record Metrics : Type := mkMetrics {
  total_records : nat;
  high_risk : nat;
  medium_risk : nat;
  normal : nat
}.

Definition summary (filtered : list DashRow) : Metrics :=
  {| total_records := List.length filtered;
     high_risk := severity_count "High" filtered;
     medium_risk := severity_count "Medium" filtered;
     normal := severity_count "Normal" filtered |}.

Definition severity_options : list string := ["High"; "Medium"; "Normal"].
Definition default_severity : list string := ["High"; "Medium"].
Definition default_type : list string := ["Hot Spot"; "Dark Spot"].

(** *** The state selectbox *)

(** What rendering the page ends with: the value shown, or the TypeError
    of comparing a missing state (a float NaN) with a text. *)
Inductive dash_result (T : Type) : Type :=
| Shown (v : T)
| TypeError.
Arguments Shown {T} v.
Arguments TypeError {T}.

(** Python's [a < b] on two cells of the state column: defined on two
    texts and on two NaN (false), a TypeError on one of each. *)
Definition py_lt (a b : text) : option bool :=
  match a, b with
  | Some x, Some y => Some (String.ltb x y)
  | None, None => Some false
  | _, _ => None
  end.

(** [sorted(values)], by insertion with [<]. *)
Fixpoint insert_text (x : text) (l : list text) : option (list text) :=
  match l with
  | [] => Some [x]
  | y :: t =>
      match py_lt x y with
      | None => None
      | Some true => Some (x :: l)
      | Some false => option_map (cons y) (insert_text x t)
      end
  end.

Fixpoint sorted_texts (l : list text) : option (list text) :=
  match l with
  | [] => Some []
  | x :: t =>
      match sorted_texts t with
      | None => None
      | Some s => insert_text x s
      end
  end.

Definition text_eq_dec (a b : text) : {a = b} + {a <> b}.
Proof. decide equality. apply string_dec. Defined.

(** [["All"] + sorted(df["state"].unique())], the first statement of the
    page that looks at the table: it runs before any filter. *)
Definition state_options (df : list DashRow) : option (list text) :=
  option_map (cons (Some "All"))
             (sorted_texts (nodup text_eq_dec (map d_state df))).

(** The filters for the entry chosen in the selectbox; the entry NaN (a
    table whose states are all missing) equals no state. *)
Definition filter_by_choice (choice : text) (severity_filter type_filter : list string)
  (df : list DashRow) : list DashRow :=
  match choice with
  | Some state_filter => apply_filters state_filter severity_filter type_filter df
  | None => []
  end.

(** The page down to the four numbers of the summary. *)
Definition dashboard (df : list DashRow) (choice : text)
  (severity_filter type_filter : list string) : dash_result Metrics :=
  match state_options df with
  | None => TypeError
  | Some _ => Shown (summary (filter_by_choice choice severity_filter type_filter df))
  end.

Definition is_missing (t : text) : bool :=
  match t with
  | None => true
  | Some _ => false
  end.

(** A row of the report and the row read back from the export agree on
    severity and type. *)
Definition written_as (A : Type) (row : ReportRow A) (d : DashRow) : Prop :=
  d_risk_severity d = Some (r_risk_severity row) /\
  d_anomaly_type d = Some (r_anomaly_type row).

Lemma isin_incl (values values' : list string) (t : text) :
  incl values values' -> isin values t = true -> isin values' t = true.
Proof.
  intros Hi. destruct t as [x|]; simpl; [|auto]. rewrite !existsb_exists.
  intros [v [Hv E]]. exists v. split; [apply Hi, Hv|exact E].
Qed.

Lemma in_apply_filters (s : string) (sev ty : list string) (df : list DashRow)
  (r : DashRow) :
  In r (apply_filters s sev ty df) ->
  In r df /\ isin sev (d_risk_severity r) = true /\ isin ty (d_anomaly_type r) = true.
Proof.
  unfold apply_filters. rewrite !filter_In. intros [[H Hs] Ht].
  split; [|auto]. destruct (negb (String.eqb s "All")); [|exact H].
  apply filter_In in H. apply H.
Qed.

Lemma severity_counts_cover (l : list DashRow) :
  Forall (fun r => isin severity_options (d_risk_severity r) = true) l ->
  List.length l
  = (severity_count "High" l + severity_count "Medium" l + severity_count "Normal" l)%nat.
Proof.
  unfold severity_count. induction 1 as [|r l Hr _ IH]; [reflexivity|].
  cbn [filter List.length]. destruct (d_risk_severity r) as [x|]; [|discriminate Hr].
  cbn [isin severity_options existsb] in Hr. cbn [text_is].
  destruct (String.eqb_spec x "High") as [E|H1];
    [|destruct (String.eqb_spec x "Medium") as [E|H2];
      [|destruct (String.eqb_spec x "Normal") as [E|H3]; [|discriminate Hr]]];
    subst x; cbn [String.eqb Ascii.eqb Bool.eqb andb List.length]; rewrite IH; lia.
Qed.

Lemma filter_keeps_all (X : Type) (f : X -> bool) (l : list X) :
  Forall (fun x => f x = true) l -> filter f l = l.
Proof.
  induction 1 as [|x l Hx _ IH]; [reflexivity|]. simpl. rewrite Hx, IH. reflexivity.
Qed.

Lemma filter_keeps_none (X : Type) (f : X -> bool) (l : list X) :
  Forall (fun x => f x = false) l -> filter f l = [].
Proof.
  induction 1 as [|x l Hx _ IH]; [reflexivity|]. simpl. rewrite Hx. exact IH.
Qed.

Section ReportRead.

Variable A : Type.
Context {N : Num A}.
Variable parse_number : string -> option A.
Variable format_2f : A -> string.

Lemma pipeline_rows_ok (data : RawFrame A) (report : Report A) :
  pipeline parse_number format_2f data = Ok report ->
  Forall (report_row_ok format_2f) (report_rows report).
Proof.
  unfold pipeline, bind. intros H.
  destruct (prepare_data parse_number data) as [cleaned|e]; [|discriminate H].
  destruct (detect_anomalies cleaned) as [results|e] eqn:D; [|discriminate H].
  injection H as <-.
  apply Forall_forall. intros row Hrow. cbn [generate_flagged_report report_rows] in Hrow.
  apply (Permutation_in _ (sort_values_perm _)) in Hrow.
  apply in_map_iff in Hrow. destruct Hrow as [o [<- Ho]].
  apply filter_In in Ho. destruct Ho as [Ho Hf].
  apply report_row_of_triple; [|exact Hf].
  apply (proj1 (Forall_forall _ _) (detect_anomalies_triples cleaned D) o Ho).
Qed.

(** What the dashboard sees of the rows of a report. *)
Lemma read_rows (rows : list (ReportRow A)) (table : list DashRow) :
  Forall (report_row_ok format_2f) rows ->
  Forall2 (@written_as A) rows table ->
  Forall (fun d => isin default_severity (d_risk_severity d) = true /\
                   isin default_type (d_anomaly_type d) = true /\
                   text_is "Normal" (d_risk_severity d) = false /\
                   isin ["Normal"] (d_anomaly_type d) = false) table.
Proof.
  intros Hok H. induction H as [|row d rows table [Hs Ht] _ IH]; [constructor|].
  inversion Hok as [|? ? [Hsev Hty] Hrest]; subst. constructor; [|apply IH, Hrest].
  rewrite Hs, Ht.
  destruct Hsev as [->| ->]; destruct Hty as [[-> _]|[-> _]]; repeat split; reflexivity.
Qed.

End ReportRead.

(** *** Sorting the states *)

Lemma insert_text_same (x : text) (l : list text) :
  Forall (fun y => is_missing y = is_missing x) l ->
  exists s, insert_text x l = Some s /\ s <> [] /\
            forall z, In z s <-> z = x \/ In z l.
Proof.
  induction 1 as [|y t Hy _ IH].
  - exists [x]. simpl. split; [reflexivity|]. split; [discriminate|]. intros z. intuition (subst; auto).
  - cbn [insert_text].
    destruct x as [x|], y as [y|]; simpl in Hy; try discriminate Hy; cbn [py_lt].
    + destruct (String.ltb x y).
      * eexists. split; [reflexivity|]. split; [discriminate|]. intros z. simpl. intuition (subst; auto).
      * destruct IH as [s [-> [_ Hs]]]. eexists. split; [reflexivity|].
        split; [discriminate|]. intros z. simpl. rewrite Hs. simpl. intuition (subst; auto).
    + destruct IH as [s [-> [_ Hs]]]. eexists. split; [reflexivity|].
      split; [discriminate|]. intros z. simpl. rewrite Hs. simpl. intuition (subst; auto).
Qed.

Lemma insert_text_other (x y : text) (l : list text) :
  is_missing y = negb (is_missing x) -> insert_text x (y :: l) = None.
Proof. destruct x, y; simpl; intros H; try discriminate H; reflexivity. Qed.

(** A list of one kind (all texts, or all missing) is sorted. *)
Lemma sorted_texts_same (k : bool) (l : list text) :
  Forall (fun y => is_missing y = k) l ->
  exists s, sorted_texts l = Some s /\ Forall (fun y => is_missing y = k) s /\
            (l <> [] -> s <> []) /\ forall z, In z s <-> In z l.
Proof.
  induction 1 as [|x t Hx _ IH].
  - exists []. repeat split; auto.
  - destruct IH as [s' [E [Hk [_ Hin]]]]. cbn [sorted_texts]. rewrite E.
    destruct (insert_text_same x (l := s')) as [s [Es [Hne Hs]]].
    { apply (Forall_impl _ (fun y Hy => eq_trans Hy (eq_sym Hx)) Hk). }
    exists s. split; [exact Es|]. split; [|split; [intros _; exact Hne|]].
    + apply Forall_forall. intros z Hz. apply Hs in Hz. destruct Hz as [->|Hz].
      * exact Hx.
      * apply (proj1 (Forall_forall _ _) Hk z Hz).
    + intros z. rewrite Hs, Hin. simpl. split; intros [H|H]; auto.
Qed.

(** A list that is sorted without error is of one kind. *)
Lemma sorted_texts_kind (l : list text) (s : list text) :
  sorted_texts l = Some s -> exists k, Forall (fun y => is_missing y = k) l.
Proof.
  revert s. induction l as [|x t IH]; intros s H.
  - exists true. constructor.
  - cbn [sorted_texts] in H. destruct (sorted_texts t) as [s'|] eqn:E; [|discriminate H].
    destruct (IH s' eq_refl) as [k Hk].
    destruct t as [|y t']; [exists (is_missing x); repeat constructor|].
    exists k. constructor; [|exact Hk].
    destruct (sorted_texts_same Hk) as [s2 [E2 [Hk2 [Hne _]]]].
    rewrite E in E2. injection E2 as <-.
    destruct s' as [|z s']; [exfalso; apply Hne; [discriminate|reflexivity]|].
    inversion Hk2 as [|? ? Hz _]; subst.
    destruct (Bool.bool_dec (is_missing x) (is_missing z)) as [Hxz|Hxz]; [exact Hxz|].
    rewrite insert_text_other in H; [discriminate H|].
    destruct (is_missing x), (is_missing z); simpl; congruence.
Qed.

Lemma state_options_raises (df : list DashRow) :
  state_options df = None <->
  (exists r, In r df /\ d_state r = None) /\
  (exists r, In r df /\ d_state r <> None).
Proof.
  unfold state_options.
  set (values := nodup text_eq_dec (map d_state df)).
  assert (Hv : forall t, In t values <-> exists r, In r df /\ d_state r = t).
  { intros t. unfold values. rewrite nodup_In, in_map_iff. split.
    - intros [r [E Hr]]. exists r. auto.
    - intros [r [Hr E]]. exists r. auto. }
  split.
  - intros H. destruct (sorted_texts values) as [s|] eqn:E; [discriminate H|]. clear H.
    assert (Hnot : forall k, ~ Forall (fun y => is_missing y = k) values).
    { intros k Hk. destruct (sorted_texts_same Hk) as [s [Es _]]. congruence. }
    split.
    + destruct (Exists_dec (fun y => is_missing y = true) values) as [Hex|Hno].
      { intros y. apply Bool.bool_dec. }
      * apply Exists_exists in Hex. destruct Hex as [y [Hy Hm]].
        apply Hv in Hy. destruct Hy as [r [Hr Er]]. exists r. split; [exact Hr|].
        rewrite Er. destruct y; [discriminate Hm|reflexivity].
      * exfalso. apply (Hnot false). apply Forall_forall. intros y Hy.
        destruct (is_missing y) eqn:M; [|reflexivity].
        exfalso. apply Hno. apply Exists_exists. exists y. auto.
    + destruct (Exists_dec (fun y => is_missing y = false) values) as [Hex|Hno].
      { intros y. apply Bool.bool_dec. }
      * apply Exists_exists in Hex. destruct Hex as [y [Hy Hm]].
        apply Hv in Hy. destruct Hy as [r [Hr Er]]. exists r. split; [exact Hr|].
        rewrite Er. destruct y; [discriminate|discriminate Hm].
      * exfalso. apply (Hnot true). apply Forall_forall. intros y Hy.
        destruct (is_missing y) eqn:M; [reflexivity|].
        exfalso. apply Hno. apply Exists_exists. exists y. auto.
  - intros [[r [Hr Er]] [r' [Hr' Er']]].
    destruct (sorted_texts values) as [s|] eqn:E; [|reflexivity]. exfalso.
    destruct (sorted_texts_kind _ E) as [k Hk].
    assert (H1 : is_missing (d_state r) = k).
    { apply (proj1 (Forall_forall _ _) Hk). apply Hv. exists r. auto. }
    assert (H2 : is_missing (d_state r') = k).
    { apply (proj1 (Forall_forall _ _) Hk). apply Hv. exists r'. auto. }
    rewrite Er in H1. destruct (d_state r'); [|congruence].
    simpl in H1, H2. congruence.
Qed.

Lemma in_state_options (df : list DashRow) (options : list text) (c : text) :
  state_options df = Some options ->
  (In c options <-> c = Some "All" \/ exists r, In r df /\ d_state r = c).
Proof.
  unfold state_options. intros H.
  destruct (sorted_texts (nodup text_eq_dec (map d_state df))) as [s|] eqn:E;
    [|discriminate H].
  injection H as <-.
  destruct (sorted_texts_kind _ E) as [k Hk].
  destruct (sorted_texts_same Hk) as [s2 [E2 [_ [_ Hin]]]].
  rewrite E in E2. injection E2 as <-.
  simpl. rewrite Hin, nodup_In, in_map_iff. split.
  - intros [<-|[r [Er Hr]]]; [left; reflexivity|right; exists r; auto].
  - intros [->|[r [Hr Er]]]; [left; reflexivity|right; exists r; auto].
Qed.

(** X14: the page down to its summary.  Building the state selectbox
    raises TypeError exactly when the table has a row with a missing state
    and a row with a state, and then nothing is shown.  Otherwise the
    entries of the selectbox are All and the states of the table, and for
    every entry and every selection from the offered severities the
    summary is shown and its numbers agree: the total is the sum of the
    High, the Medium and the Normal count. *)
Theorem summary_adds_up (df : list DashRow) (severity_filter type_filter : list string) :
  incl severity_filter severity_options ->
  (state_options df = None <->
   (exists r, In r df /\ d_state r = None) /\
   (exists r, In r df /\ d_state r <> None)) /\
  (state_options df = None ->
   forall choice, dashboard df choice severity_filter type_filter = TypeError) /\
  (forall options, state_options df = Some options ->
     (forall c, In c options <->
                c = Some "All" \/ exists r, In r df /\ d_state r = c) /\
     forall choice, In choice options ->
       exists m, dashboard df choice severity_filter type_filter = Shown m /\
                 total_records m = (high_risk m + medium_risk m + normal m)%nat).
Proof.
  intros Hi. split; [apply state_options_raises|]. split.
  - intros H choice. unfold dashboard. rewrite H. reflexivity.
  - intros options H. split; [intros c; apply (in_state_options df c H)|].
    intros choice _. unfold dashboard. rewrite H. eexists. split; [reflexivity|].
    cbn [summary total_records high_risk medium_risk normal].
    apply severity_counts_cover. apply Forall_forall. intros r Hr.
    destruct choice as [state_filter|]; [|destruct Hr].
    apply in_apply_filters in Hr. destruct Hr as [_ [Hs _]].
    apply (isin_incl _ Hi Hs).
Qed.

Definition sample_table : list DashRow :=
  [mkDashRow (Some "Goa") (Some "High") (Some "Hot Spot");
   mkDashRow (Some "Goa") (Some "Medium") (Some "Dark Spot");
   mkDashRow (Some "Goa") (Some "Normal") (Some "Normal");
   mkDashRow (Some "Assam") (Some "High") (Some "Hot Spot")].

Lemma summary_adds_up_witness :
  state_options sample_table = Some [Some "All"; Some "Assam"; Some "Goa"] /\
  exists m,
    dashboard sample_table (Some "Goa") default_severity default_type = Shown m /\
    total_records m = 2%nat /\
    total_records m = (high_risk m + medium_risk m + normal m)%nat.
Proof.
  assert (Hi : incl default_severity severity_options)
    by (intros x [<-|[<-|[]]]; simpl; auto).
  assert (Ho : state_options sample_table = Some [Some "All"; Some "Assam"; Some "Goa"])
    by (vm_compute; reflexivity).
  split; [exact Ho|].
  destruct (summary_adds_up sample_table default_type Hi) as [_ [_ H]].
  destruct (H _ Ho) as [_ Hm].
  destruct (Hm (Some "Goa")) as [m [Hd Ht]]; [simpl; auto|].
  exists m. split; [exact Hd|]. split; [|exact Ht].
  assert (E : dashboard sample_table (Some "Goa") default_severity default_type
              = Shown (mkMetrics 2 1 1 0)) by (vm_compute; reflexivity).
  rewrite E in Hd. injection Hd as <-. reflexivity.
Defined.

(** X15: the dashboard on the export of a run of the engine, read back with
    the severity and the type of every row as written: with the filters at
    their defaults (all states, High and Medium, Hot Spot and Dark Spot)
    every row of the report is shown; whatever is selected, the Normal
    count of the summary is 0; and selecting only Normal, as severity or
    as type, shows nothing. *)
Theorem dashboard_shows_report (A : Type) (N : Num A)
  (parse_number : string -> option A) (format_2f : A -> string)
  (data : RawFrame A) (report : Report A) (table : list DashRow) :
  pipeline parse_number format_2f data = Ok report ->
  Forall2 (@written_as A) (report_rows report) table ->
  apply_filters "All" default_severity default_type table = table /\
  (forall state_filter severity_filter type_filter,
     normal (summary (apply_filters state_filter severity_filter type_filter table))
     = 0%nat) /\
  (forall state_filter type_filter,
     apply_filters state_filter ["Normal"] type_filter table = []) /\
  (forall state_filter severity_filter,
     apply_filters state_filter severity_filter ["Normal"] table = []).
Proof.
  intros Hrun Hread.
  pose proof (read_rows (pipeline_rows_ok _ _ _ Hrun) Hread) as H.
  split; [|split; [|split]].
  - unfold apply_filters. cbn [String.eqb Ascii.eqb Bool.eqb andb negb].
    rewrite (filter_keeps_all (fun r => isin default_severity (d_risk_severity r)));
      [|apply (Forall_impl _ (fun d Hd => proj1 Hd) H)].
    apply filter_keeps_all. apply (Forall_impl _ (fun d Hd => proj1 (proj2 Hd)) H).
  - intros s sev ty. cbn [summary normal]. unfold severity_count.
    rewrite filter_keeps_none; [reflexivity|]. apply Forall_forall. intros r Hr.
    apply in_apply_filters in Hr. destruct Hr as [Hr _].
    apply (proj1 (Forall_forall _ _) H r Hr).
  - intros s ty. unfold apply_filters.
    rewrite (filter_keeps_none (fun r => isin ["Normal"] (d_risk_severity r)));
      [reflexivity|].
    apply Forall_forall. intros r Hr.
    assert (Hin : In r table).
    { destruct (negb (String.eqb s "All")); [apply filter_In in Hr; apply Hr|exact Hr]. }
    pose proof (proj1 (Forall_forall _ _) H r Hin) as [_ [_ [Hn _]]].
    destruct (d_risk_severity r) as [x|]; [|reflexivity].
    cbn [isin existsb text_is] in *. rewrite Hn. reflexivity.
  - intros s sev. unfold apply_filters. apply filter_keeps_none.
    apply Forall_forall. intros r Hr. apply filter_In in Hr. destruct Hr as [Hr _].
    assert (Hin : In r table).
    { destruct (negb (String.eqb s "All")); [apply filter_In in Hr; apply Hr|exact Hr]. }
    apply (proj1 (Forall_forall _ _) H r Hin).
Qed.

(** The row of the dashboard for a row of the report. *)
Definition read_back (A : Type) (row : ReportRow A) : DashRow :=
  {| d_state := r_state row;
     d_risk_severity := Some (r_risk_severity row);
     d_anomaly_type := Some (r_anomaly_type row) |}.

Lemma read_back_written (A : Type) (rows : list (ReportRow A)) :
  Forall2 (@written_as A) rows (map (@read_back A) rows).
Proof.
  induction rows as [|r rows IH]; simpl; constructor; [|exact IH].
  split; reflexivity.
Qed.

Lemma dashboard_shows_report_witness :
  match pipeline Samples.no_parse (fun _ : float => "?") Samples.two_state_frame with
  | Ok report =>
      List.length (report_rows report) = 2%nat /\
      apply_filters "All" default_severity default_type
        (map (@read_back float) (report_rows report))
      = map (@read_back float) (report_rows report)
  | Raise _ => False
  end.
Proof.
  destruct (pipeline Samples.no_parse (fun _ : float => "?") Samples.two_state_frame)
    as [report|e] eqn:E; [|vm_compute in E; discriminate E].
  split.
  - assert (H : match pipeline Samples.no_parse (fun _ : float => "?")
                        Samples.two_state_frame with
                | Ok r => List.length (report_rows r)
                | Raise _ => 0%nat
                end = 2%nat) by (vm_compute; reflexivity).
    rewrite E in H. exact H.
  - apply (proj1 (dashboard_shows_report FloatNum Samples.no_parse (fun _ : float => "?")
                    Samples.two_state_frame E (read_back_written (report_rows report)))).
Defined.
